(** * nanobot: configuration loader and BigQuery tool

    A shallow embedding of [nanobot/config/loader.py] and of
    [nanobot/agent/tools/bigquery.py], with the properties of the
    configuration core stated and proved over it.

    Conventions.
    - Python [str] values are modelled by [string]; the model covers ASCII
      text only (code points below 128), which is where the built-ins
      [isupper], [lower], [title], [strip] and [split] are embedded.
    - A [dict] is an association list in insertion order with distinct keys;
      [d[k] = v] keeps the position of an existing key.
    - A function that can raise returns a [result].
    - The exceptions modelled are those of the statements of the two files:
      the decoding and validation errors the loader catches, the
      [AttributeError], [TypeError] and [KeyError] of [_migrate_config] on
      documents of other shapes, and the [OSError] of [open] and [mkdir].
      Not modelled are the failures of the interpreter and of the
      operating system around them: a [RecursionError] on a deeply nested
      document, [Path.home()] finding no home directory, [path.exists()]
      failing on a directory that cannot be searched, and the
      [AttributeError] of [getattr(config.channels, c).enabled = True] when
      [CHANNELS] names an attribute of the channels object that is not a
      section.  On such a run the code raises where the model goes on; so
      what is stated of [load_config] is what it raises, what it prints,
      and what a configuration it returns is, never that it returns. *)

From Stdlib Require Import String Ascii List Bool Arith ZArith Lia DecimalString Btauto.
Import ListNotations.
Open Scope string_scope.
Open Scope list_scope.
Open Scope nat_scope.

(** ** Python string built-ins (ASCII) *)

Module PyStr.

Definition isupper (c : ascii) : bool :=
  let n := nat_of_ascii c in (65 <=? n) && (n <=? 90).

Definition islower (c : ascii) : bool :=
  let n := nat_of_ascii c in (97 <=? n) && (n <=? 122).

Definition isdigit (c : ascii) : bool :=
  let n := nat_of_ascii c in (48 <=? n) && (n <=? 57).

(** [isalpha] on ASCII coincides with "is a cased character". *)
Definition isalpha (c : ascii) : bool := isupper c || islower c.

Definition isalnum (c : ascii) : bool := isalpha c || isdigit c.

(** [str.isspace] for one ASCII character: TAB, LF, VT, FF, CR, the four
    separators FS/GS/RS/US, and the space. *)
Definition isspace (c : ascii) : bool :=
  let n := nat_of_ascii c in
  ((9 <=? n) && (n <=? 13)) || ((28 <=? n) && (n <=? 32)).

Definition lower_char (c : ascii) : ascii :=
  if isupper c then ascii_of_nat (nat_of_ascii c + 32) else c.

Definition upper_char (c : ascii) : ascii :=
  if islower c then ascii_of_nat (nat_of_ascii c - 32) else c.

(** [s.lower()] *)
Fixpoint lower (s : string) : string :=
  match s with
  | EmptyString => EmptyString
  | String c r => String (lower_char c) (lower r)
  end.

(** [s.title()]: a character that follows a cased character is lowered,
    any other character is title-cased. *)
Fixpoint title_from (previous_is_cased : bool) (s : string) : string :=
  match s with
  | EmptyString => EmptyString
  | String c r =>
      String (if previous_is_cased then lower_char c else upper_char c)
             (title_from (isalpha c) r)
  end.

Definition title (s : string) : string := title_from false s.

(** [s.split(sep)] for a one-character separator: never the empty list. *)
Fixpoint split (sep : ascii) (s : string) : list string :=
  match s with
  | EmptyString => [EmptyString]
  | String c r =>
      if Ascii.eqb c sep then EmptyString :: split sep r
      else match split sep r with
           | [] => [String c EmptyString]
           | h :: t => String c h :: t
           end
  end.

(** ["".join(l)] *)
Fixpoint join (l : list string) : string :=
  match l with
  | [] => EmptyString
  | x :: r => (x ++ join r)%string
  end.

Fixpoint lstrip (s : string) : string :=
  match s with
  | EmptyString => EmptyString
  | String c r => if isspace c then lstrip r else s
  end.

Fixpoint rstrip (s : string) : string :=
  match s with
  | EmptyString => EmptyString
  | String c r =>
      match rstrip r with
      | EmptyString => if isspace c then EmptyString else String c EmptyString
      | r' => String c r'
      end
  end.

(** [s.strip()] *)
Definition strip (s : string) : string := rstrip (lstrip s).

(** Truth value of a [str]: non-empty. *)
Definition truthy (s : string) : bool :=
  match s with EmptyString => false | String _ _ => true end.

Fixpoint forallb (p : ascii -> bool) (s : string) : bool :=
  match s with
  | EmptyString => true
  | String c r => p c && forallb p r
  end.

End PyStr.

(** ** Key-case transforms ([loader.py], lines 182-195) *)

(** The loop of [camel_to_snake], started at index [i] of [enumerate]. *)
Fixpoint camel_to_snake_from (i : nat) (name : string) : string :=
  match name with
  | EmptyString => EmptyString
  | String char rest =>
      let tail := String (PyStr.lower_char char) (camel_to_snake_from (S i) rest) in
      if PyStr.isupper char && (0 <? i) then String "_" tail else tail
  end.

Definition camel_to_snake (name : string) : string :=
  camel_to_snake_from 0 name.

Definition snake_to_camel (name : string) : string :=
  match PyStr.split "_" name with
  | [] => EmptyString
  | first :: components => (first ++ PyStr.join (map PyStr.title components))%string
  end.

(** ** Raw documents and dictionaries *)

(** A raw document, as [json.loads] returns it.  A float is kept as its
    binary64 bit pattern; no function of the loader looks into a number. *)
#[warnings="-register-all"]
Inductive json : Type :=
| JNull
| JBool (b : bool)
| JInt (n : Z)
| JFloat (bits : Z)
| JStr (s : string)
| JList (items : list json)
| JDict (items : list (string * json)).

Module Dict.
Section Ops.
Context {V : Type}.

(** [d.get(k)] *)
Fixpoint get (k : string) (d : list (string * V)) : option V :=
  match d with
  | [] => None
  | (k', v) :: r => if String.eqb k' k then Some v else get k r
  end.

(** [k in d] *)
Definition contains (k : string) (d : list (string * V)) : bool :=
  match get k d with Some _ => true | None => false end.

(** [d[k] = v]: an existing key keeps its position, a new key goes last. *)
Fixpoint set (k : string) (v : V) (d : list (string * V)) : list (string * V) :=
  match d with
  | [] => [(k, v)]
  | (k', v') :: r =>
      if String.eqb k' k then (k, v) :: r else (k', v') :: set k v r
  end.

(** [del d[k]]: the entry of [k] is taken out, the others keep their order. *)
Definition remove (k : string) (d : list (string * V)) : list (string * V) :=
  filter (fun kv => negb (String.eqb (fst kv) k)) d.

(** A dict comprehension over the pairs [items], evaluated left to right. *)
Definition of_items (items : list (string * V)) : list (string * V) :=
  fold_left (fun d kv => set (fst kv) (snd kv) d) items [].

Definition keys (d : list (string * V)) : list string := map fst d.
End Ops.
End Dict.

(** ** Key-case normalizer over documents ([loader.py], lines 164-179) *)

Fixpoint convert_keys (data : json) : json :=
  match data with
  | JDict items =>
      JDict (Dict.of_items
               (map (fun kv => (camel_to_snake (fst kv), convert_keys (snd kv))) items))
  | JList items => JList (map convert_keys items)
  | _ => data
  end.

Fixpoint convert_to_camel (data : json) : json :=
  match data with
  | JDict items =>
      JDict (Dict.of_items
               (map (fun kv => (snake_to_camel (fst kv), convert_to_camel (snd kv))) items))
  | JList items => JList (map convert_to_camel items)
  | _ => data
  end.

(** ** Exceptions *)

Inductive exn : Type :=
| JSONDecodeError      (* json: the text is not a JSON document *)
| UnicodeDecodeError   (* reading a file that is not valid text *)
| ValidationError      (* pydantic: the document does not fit the schema *)
| AttributeError
| TypeError
| KeyError
| OSError.             (* open(): permission denied, is a directory, ... *)

(** [isinstance(e, ValueError)]: the three subclasses of [ValueError]. *)
Definition is_ValueError (e : exn) : bool :=
  match e with
  | JSONDecodeError | UnicodeDecodeError | ValidationError => true
  | _ => false
  end.

Inductive result (A : Type) : Type :=
| Ret (a : A)
| Raise (e : exn).
Arguments Ret {A} a.
Arguments Raise {A} e.

Definition bind {A B : Type} (m : result A) (k : A -> result B) : result B :=
  match m with
  | Ret a => k a
  | Raise e => Raise e
  end.

Notation "x <- m ;; k" := (bind m (fun x => k))
  (at level 61, m at next level, right associativity).

(** ** Migration shim ([loader.py], lines 154-161) *)

(** [needle in haystack] for two strings: substring test. *)
Fixpoint substring_of (needle haystack : string) : bool :=
  String.prefix needle haystack ||
  match haystack with
  | EmptyString => false
  | String _ r => substring_of needle r
  end.

(** [s in x] for a string [s] and a document node [x]: key membership in a
    mapping, element membership in a sequence, substring test in a string;
    the other scalars are not iterable. *)
Definition str_in (s : string) (x : json) : result bool :=
  match x with
  | JDict items => Ret (Dict.contains s items)
  | JList items =>
      Ret (existsb (fun y => match y with JStr t => String.eqb s t | _ => false end)
                   items)
  | JStr t => Ret (substring_of s t)
  | JNull | JBool _ | JInt _ | JFloat _ => Raise TypeError
  end.

(** [x.pop(s)] for a string [s]: defined on mappings only; a sequence wants
    an index, the scalars have no [pop]. *)
Definition pop_str (s : string) (x : json) : result (json * json) :=
  match x with
  | JDict items =>
      match Dict.get s items with
      | Some v => Ret (v, JDict (Dict.remove s items))
      | None => Raise KeyError
      end
  | JList _ => Raise TypeError
  | _ => Raise AttributeError
  end.

(** The document is a tree, so the in-place updates of [exec_cfg] and
    [tools] are written back along the path [data -> tools -> exec].  When
    ["tools"] or ["exec"] is absent the code works on a fresh empty mapping
    that is not part of [data]; the condition is then false and nothing is
    written. *)
Definition _migrate_config (data : json) : result json :=
  match data with
  | JDict top =>
      (* tools = data.get("tools", {}) *)
      let tools := match Dict.get "tools" top with Some t => t | None => JDict [] end in
      match tools with
      | JDict tools_items =>
          (* exec_cfg = tools.get("exec", {}) *)
          let exec_cfg :=
            match Dict.get "exec" tools_items with Some e => e | None => JDict [] end in
          in_exec <- str_in "restrictToWorkspace" exec_cfg ;;
          if in_exec && negb (Dict.contains "restrictToWorkspace" tools_items) then
            popped <- pop_str "restrictToWorkspace" exec_cfg ;;
            let tools_items := Dict.set "exec" (snd popped) tools_items in
            let tools_items := Dict.set "restrictToWorkspace" (fst popped) tools_items in
            Ret (JDict (Dict.set "tools" (JDict tools_items) top))
          else Ret data
      | _ => Raise AttributeError   (* tools.get *)
      end
  | _ => Raise AttributeError       (* data.get *)
  end.

(** ** The configuration object *)

(** Modelled from the spec: [nanobot.config.schema], the module that
    declares [Config], is not among the sources.  The spec describes a typed
    tree of sections (providers, agent defaults, channels, tools); the
    sections and fields below are exactly the attribute paths that
    [loader.py] reads or writes, with the types of the values it assigns.
    Fields the loader never names are left out; [ChannelsConfig.others]
    stands for the channel sections of the schema besides the two the loader
    names, each with its [enabled] flag. *)
Module ProviderConfig.
Record t := mk { api_key : string }.
End ProviderConfig.

Module ProvidersConfig.
Record t := mk {
  groq : ProviderConfig.t;
  openrouter : ProviderConfig.t;
  openai : ProviderConfig.t;
  anthropic : ProviderConfig.t;
  deepseek : ProviderConfig.t;
  gemini : ProviderConfig.t;
  zhipu : ProviderConfig.t
}.
End ProvidersConfig.

Module AgentDefaults.
Record t := mk { model : string; workspace : string }.
End AgentDefaults.

Module AgentsConfig.
Record t := mk { defaults : AgentDefaults.t }.
End AgentsConfig.

Module TelegramConfig.
Record t := mk { enabled : bool; token : string; allow_from : list string }.
End TelegramConfig.

Module WhatsAppConfig.
Record t := mk { enabled : bool; allow_from : list string }.
End WhatsAppConfig.

Module ChannelsConfig.
Record t := mk {
  telegram : TelegramConfig.t;
  whatsapp : WhatsAppConfig.t;
  others : list (string * bool)
}.
End ChannelsConfig.

Module WebSearchConfig.
Record t := mk { api_key : string }.
End WebSearchConfig.

Module WebToolsConfig.
Record t := mk { search : WebSearchConfig.t }.
End WebToolsConfig.

Module ToolsConfig.
Record t := mk { web : WebToolsConfig.t }.
End ToolsConfig.

(** Modelled from the spec: the root object [Config] of
    [nanobot.config.schema], with the four sections the loader goes
    through. *)
Record Config := mkConfig {
  providers : ProvidersConfig.t;
  agents : AgentsConfig.t;
  channels : ChannelsConfig.t;
  tools : ToolsConfig.t
}.

(** *** Attribute assignments, one per target of [_apply_env_overrides] *)

Definition set_groq_api_key (key : string) (config : Config) : Config :=
  let p := providers config in
  mkConfig
    (ProvidersConfig.mk (ProviderConfig.mk key) (ProvidersConfig.openrouter p)
       (ProvidersConfig.openai p) (ProvidersConfig.anthropic p)
       (ProvidersConfig.deepseek p) (ProvidersConfig.gemini p) (ProvidersConfig.zhipu p))
    (agents config) (channels config) (tools config).

Definition set_openrouter_api_key (key : string) (config : Config) : Config :=
  let p := providers config in
  mkConfig
    (ProvidersConfig.mk (ProvidersConfig.groq p) (ProviderConfig.mk key)
       (ProvidersConfig.openai p) (ProvidersConfig.anthropic p)
       (ProvidersConfig.deepseek p) (ProvidersConfig.gemini p) (ProvidersConfig.zhipu p))
    (agents config) (channels config) (tools config).

Definition set_openai_api_key (key : string) (config : Config) : Config :=
  let p := providers config in
  mkConfig
    (ProvidersConfig.mk (ProvidersConfig.groq p) (ProvidersConfig.openrouter p)
       (ProviderConfig.mk key) (ProvidersConfig.anthropic p)
       (ProvidersConfig.deepseek p) (ProvidersConfig.gemini p) (ProvidersConfig.zhipu p))
    (agents config) (channels config) (tools config).

Definition set_anthropic_api_key (key : string) (config : Config) : Config :=
  let p := providers config in
  mkConfig
    (ProvidersConfig.mk (ProvidersConfig.groq p) (ProvidersConfig.openrouter p)
       (ProvidersConfig.openai p) (ProviderConfig.mk key)
       (ProvidersConfig.deepseek p) (ProvidersConfig.gemini p) (ProvidersConfig.zhipu p))
    (agents config) (channels config) (tools config).

Definition set_deepseek_api_key (key : string) (config : Config) : Config :=
  let p := providers config in
  mkConfig
    (ProvidersConfig.mk (ProvidersConfig.groq p) (ProvidersConfig.openrouter p)
       (ProvidersConfig.openai p) (ProvidersConfig.anthropic p)
       (ProviderConfig.mk key) (ProvidersConfig.gemini p) (ProvidersConfig.zhipu p))
    (agents config) (channels config) (tools config).

Definition set_gemini_api_key (key : string) (config : Config) : Config :=
  let p := providers config in
  mkConfig
    (ProvidersConfig.mk (ProvidersConfig.groq p) (ProvidersConfig.openrouter p)
       (ProvidersConfig.openai p) (ProvidersConfig.anthropic p)
       (ProvidersConfig.deepseek p) (ProviderConfig.mk key) (ProvidersConfig.zhipu p))
    (agents config) (channels config) (tools config).

Definition set_zhipu_api_key (key : string) (config : Config) : Config :=
  let p := providers config in
  mkConfig
    (ProvidersConfig.mk (ProvidersConfig.groq p) (ProvidersConfig.openrouter p)
       (ProvidersConfig.openai p) (ProvidersConfig.anthropic p)
       (ProvidersConfig.deepseek p) (ProvidersConfig.gemini p) (ProviderConfig.mk key))
    (agents config) (channels config) (tools config).

Definition set_agent_model (model : string) (config : Config) : Config :=
  let d := AgentsConfig.defaults (agents config) in
  mkConfig (providers config)
    (AgentsConfig.mk (AgentDefaults.mk model (AgentDefaults.workspace d)))
    (channels config) (tools config).

Definition set_agent_workspace (workspace : string) (config : Config) : Config :=
  let d := AgentsConfig.defaults (agents config) in
  mkConfig (providers config)
    (AgentsConfig.mk (AgentDefaults.mk (AgentDefaults.model d) workspace))
    (channels config) (tools config).

Definition set_channels (c : ChannelsConfig.t) (config : Config) : Config :=
  mkConfig (providers config) (agents config) c (tools config).

Definition set_telegram (t : TelegramConfig.t) (config : Config) : Config :=
  let c := channels config in
  set_channels (ChannelsConfig.mk t (ChannelsConfig.whatsapp c) (ChannelsConfig.others c))
               config.

Definition set_whatsapp (w : WhatsAppConfig.t) (config : Config) : Config :=
  let c := channels config in
  set_channels (ChannelsConfig.mk (ChannelsConfig.telegram c) w (ChannelsConfig.others c))
               config.

Definition set_telegram_token (token : string) (config : Config) : Config :=
  let t := ChannelsConfig.telegram (channels config) in
  set_telegram
    (TelegramConfig.mk (TelegramConfig.enabled t) token (TelegramConfig.allow_from t))
    config.

Definition set_telegram_enabled (b : bool) (config : Config) : Config :=
  let t := ChannelsConfig.telegram (channels config) in
  set_telegram
    (TelegramConfig.mk b (TelegramConfig.token t) (TelegramConfig.allow_from t))
    config.

Definition set_telegram_allow_from (users : list string) (config : Config) : Config :=
  let t := ChannelsConfig.telegram (channels config) in
  set_telegram
    (TelegramConfig.mk (TelegramConfig.enabled t) (TelegramConfig.token t) users)
    config.

Definition set_whatsapp_enabled (b : bool) (config : Config) : Config :=
  let w := ChannelsConfig.whatsapp (channels config) in
  set_whatsapp (WhatsAppConfig.mk b (WhatsAppConfig.allow_from w)) config.

Definition set_whatsapp_allow_from (numbers : list string) (config : Config) : Config :=
  let w := ChannelsConfig.whatsapp (channels config) in
  set_whatsapp (WhatsAppConfig.mk (WhatsAppConfig.enabled w) numbers) config.

Definition set_web_search_api_key (key : string) (config : Config) : Config :=
  mkConfig (providers config) (agents config) (channels config)
    (ToolsConfig.mk (WebToolsConfig.mk (WebSearchConfig.mk key))).

(** ** Environment override merger ([loader.py], lines 77-132) *)

(** [os.environ]: [os.environ.get(name)] is [environ name]. *)
Definition Environ := string -> option string.

(** [os.environ.get(name, default)] *)
Definition get_or (environ : Environ) (name default : string) : string :=
  match environ name with Some s => s | None => default end.

(** [a or b] on two results of [os.environ.get]. *)
Definition py_or (a b : option string) : option string :=
  match a with
  | Some s => if PyStr.truthy s then a else b
  | None => b
  end.

(** [if x := value: config = body(x, config)] *)
Definition if_set (value : option string) (body : string -> Config -> Config)
    (config : Config) : Config :=
  match value with
  | Some x => if PyStr.truthy x then body x config else config
  | None => config
  end.

(** [[u.strip() for u in s.split(",")]] *)
Definition split_and_strip (s : string) : list string :=
  map PyStr.strip (PyStr.split "," s).

(** [hasattr(config.channels, c)]: [c] names a section of the channels.
    Python's [hasattr] also holds for the other attributes of the object
    (its methods, the names with two underscores); the assignment that
    follows raises [AttributeError] for them, a run that is outside the
    model. *)
Definition hasattr_channels (channels : ChannelsConfig.t) (c : string) : bool :=
  String.eqb c "telegram" || String.eqb c "whatsapp"
  || Dict.contains c (ChannelsConfig.others channels).

(** [getattr(config.channels, c).enabled = True], for a section [c]. *)
Definition set_section_enabled (c : string) (config : Config) : Config :=
  if String.eqb c "telegram" then set_telegram_enabled true config
  else if String.eqb c "whatsapp" then set_whatsapp_enabled true config
  else
    let ch := channels config in
    set_channels
      (ChannelsConfig.mk (ChannelsConfig.telegram ch) (ChannelsConfig.whatsapp ch)
         (Dict.set c true (ChannelsConfig.others ch)))
      config.

(** The body of [for c in enabled_list]. *)
Definition enable_channel (config : Config) (c : string) : Config :=
  if hasattr_channels (channels config) c then set_section_enabled c config
  else config.

Definition _apply_env_overrides (environ : Environ) (config : Config) : Config :=
  (* LLM providers *)
  let config :=
    if_set (py_or (environ "GROQ_API_KEY") (environ "LITELLM_GROQ_API_KEY"))
           set_groq_api_key config in
  let config := if_set (environ "OPENROUTER_API_KEY") set_openrouter_api_key config in
  let config := if_set (environ "OPENAI_API_KEY") set_openai_api_key config in
  let config := if_set (environ "ANTHROPIC_API_KEY") set_anthropic_api_key config in
  let config := if_set (environ "DEEPSEEK_API_KEY") set_deepseek_api_key config in
  let config := if_set (environ "GEMINI_API_KEY") set_gemini_api_key config in
  let config :=
    if_set (py_or (environ "ZHIPU_API_KEY") (environ "ZHIPUAI_API_KEY"))
           set_zhipu_api_key config in
  (* Agent *)
  let config :=
    if_set (py_or (environ "AGENT_MODEL") (environ "MODEL")) set_agent_model config in
  let config := if_set (environ "AGENT_WORKSPACE") set_agent_workspace config in
  let config := if_set (environ "AGENT_ENGINE") (fun _ config => config) config in
  (* Telegram *)
  let config :=
    if_set (environ "TELEGRAM_TOKEN")
           (fun token config => set_telegram_enabled true (set_telegram_token token config))
           config in
  let config :=
    if_set (py_or (environ "ALLOWED_USERS") (environ "TELEGRAM_ALLOWED_USERS"))
           (fun allowed => set_telegram_allow_from (split_and_strip allowed)) config in
  (* WhatsApp *)
  let config :=
    if String.eqb (PyStr.lower (get_or environ "WHATSAPP_ENABLED" "")) "true"
    then set_whatsapp_enabled true config
    else config in
  let config :=
    if_set (environ "WHATSAPP_ALLOWED_NUMBERS")
           (fun wa_allow => set_whatsapp_allow_from (split_and_strip wa_allow)) config in
  (* Generic CHANNELS variable *)
  let config :=
    if_set (environ "CHANNELS")
           (fun channels_env config =>
              let enabled_list :=
                map (fun c => PyStr.lower (PyStr.strip c)) (PyStr.split "," channels_env) in
              fold_left enable_channel enabled_list config)
           config in
  (* Web tools *)
  let config := if_set (environ "ALEXZO_API_KEY") set_web_search_api_key config in
  config.

(** ** Paths, files and the process environment *)

(** A [pathlib.Path]: an anchor (empty, or the root) and its parts. *)
Record Path := mkPath { anchor : string; parts : list string }.

Fixpoint parts_eqb (l m : list string) : bool :=
  match l, m with
  | [], [] => true
  | x :: l', y :: m' => String.eqb x y && parts_eqb l' m'
  | _, _ => false
  end.

Definition Path_eqb (p q : Path) : bool :=
  String.eqb (anchor p) (anchor q) && parts_eqb (parts p) (parts q).

(** [p / name] *)
Definition Path_join (p : Path) (name : string) : Path :=
  mkPath (anchor p) (parts p ++ [name]).

(** [p.parent]: the path without its last part. *)
Definition Path_parent (p : Path) : Path :=
  mkPath (anchor p) (removelast (parts p)).

(** [p] is [q] or one of its parents. *)
Fixpoint is_prefix (l m : list string) : bool :=
  match l, m with
  | [], _ => true
  | x :: l', y :: m' => String.eqb x y && is_prefix l' m'
  | _ :: _, [] => false
  end.

Definition Path_is_parent_or_self (p q : Path) : bool :=
  String.eqb (anchor p) (anchor q) && is_prefix (parts p) (parts q).

(** What exists at a path: a directory, a file that [open] refuses to read,
    a file whose bytes are not text, or a file with its text. *)
Inductive file : Type :=
| Directory
| Unreadable
| Undecodable
| Text (content : string).

(** The state of the world the loader runs in.  [fs path] is [None] when
    [path.exists()] is false.  [mkdir_fails] and [open_w_fails] say whether
    the operating system refuses to create a directory with its parents,
    and to open a file for writing. *)
Record World := mkWorld {
  environ : Environ;
  home : Path;
  fs : Path -> option file;
  mkdir_fails : Path -> bool;
  open_w_fails : Path -> bool
}.

(** The [json] module of the standard library: [json.loads] ([None] when it
    raises [JSONDecodeError]) and [json.dumps] with its [indent]. *)
Class JsonCodec := {
  json_loads : string -> option json;
  json_dumps : json -> nat -> string
}.

(** Modelled from the spec: the interface of [Config] in
    [nanobot.config.schema], which is not among the sources.
    [model_validate] takes a normalized document to a configuration object
    or fails with a structural error ([None]: [ValidationError]);
    [Config_default] is the all-defaults form [Config()]; [model_dump] is
    the full field representation. *)
Class Schema := {
  model_validate : json -> option Config;
  Config_default : Config;
  model_dump : Config -> json
}.

(** Messages of [print]. *)
Inductive warning : Type :=
| WarnInline (e : exn)                 (* Failed to load config from NANOBOT_CONFIG *)
| WarnPath (path : Path) (e : exn).    (* Failed to load config from {path} *)

(** ** Layered source resolver ([loader.py], lines 11-74) *)

Definition get_config_path (w : World) : Path :=
  Path_join (Path_join (home w) ".nanobot") "config.json".

(** [open(path)] followed by reading the whole text. *)
Definition read_text (f : file) : result string :=
  match f with
  | Directory | Unreadable => Raise OSError
  | Undecodable => Raise UnicodeDecodeError
  | Text content => Ret content
  end.

Section Loader.
Context {codec : JsonCodec} {schema : Schema}.

(** The three statements both [try] blocks share: parse, migrate,
    normalize and validate. *)
Definition load_document (text : string) : result Config :=
  data <- match json_loads text with
          | Some data => Ret data
          | None => Raise JSONDecodeError
          end ;;
  data <- _migrate_config data ;;
  match model_validate (convert_keys data) with
  | Some config => Ret config
  | None => Raise ValidationError
  end.

(** The [for path in paths] loop.  The result pairs the warnings printed
    with the value of [config] after the loop, or the exception that left
    it. *)
Fixpoint try_paths (w : World) (paths : list Path)
    : list warning * result (option Config) :=
  match paths with
  | [] => ([], Ret None)
  | path :: rest =>
      match fs w path with
      | None => try_paths w rest
      | Some f =>
          match (text <- read_text f ;; load_document text) with
          | Ret config => ([], Ret (Some config))
          | Raise e =>
              if is_ValueError e then
                let (log, r) := try_paths w rest in (WarnPath path e :: log, r)
              else ([], Raise e)
          end
      end
  end.

(** Step 1: the [NANOBOT_CONFIG] variable. *)
Definition try_inline (w : World) : list warning * result (option Config) :=
  match environ w "NANOBOT_CONFIG" with
  | Some env_config =>
      if PyStr.truthy env_config then
        match load_document env_config with
        | Ret config => ([], Ret (Some config))
        | Raise e =>
            if is_ValueError e then ([WarnInline e], Ret None) else ([], Raise e)
        end
      else ([], Ret None)
  | None => ([], Ret None)
  end.

(** The list [paths] of step 2. *)
Definition candidate_paths (config_path : option Path) (w : World) : list Path :=
  match config_path with
  | Some p => [p]
  | None => [get_config_path w; mkPath "" ["config.json"]]
  end.

Definition load_config (config_path : option Path) (w : World)
    : list warning * result Config :=
  let (log1, r1) := try_inline w in
  match r1 with
  | Raise e => (log1, Raise e)
  | Ret config =>
      let (log2, r2) :=
        match config with
        | Some _ => ([], Ret config)
        | None => try_paths w (candidate_paths config_path w)
        end in
      match r2 with
      | Raise e => (log1 ++ log2, Raise e)
      | Ret config =>
          let config := match config with Some c => c | None => Config_default end in
          (log1 ++ log2, Ret (_apply_env_overrides (environ w) config))
      end
  end.

(** ** Persistence writer ([loader.py], lines 135-151) *)

(** [path.mkdir(parents=True, exist_ok=True)], when it succeeds: [path]
    and those of its parents that were missing are directories. *)
Definition mkdir_parents (path : Path) (w : World) : World :=
  mkWorld (environ w) (home w)
    (fun p =>
       match fs w p with
       | None => if Path_is_parent_or_self p path then Some Directory else None
       | Some f => Some f
       end)
    (mkdir_fails w) (open_w_fails w).

(** [open(path, "w")] and the writing of [content], when they succeed. *)
Definition write_text (path : Path) (content : string) (w : World) : World :=
  mkWorld (environ w) (home w)
    (fun p => if Path_eqb p path then Some (Text content) else fs w p)
    (mkdir_fails w) (open_w_fails w).

Definition save_config (config : Config) (config_path : option Path) (w : World)
    : result World :=
  let path := match config_path with Some p => p | None => get_config_path w end in
  if mkdir_fails w (Path_parent path) then Raise OSError
  else
    let w := mkdir_parents (Path_parent path) w in
    let data := model_dump config in
    let data := convert_to_camel data in
    if open_w_fails w path then Raise OSError
    else Ret (write_text path (json_dumps data 2) w).

End Loader.

(** ** The BigQuery tool ([bigquery.py]) *)

Module BigQuery.

(** The outcome of a call that can raise: the value, or the exception,
    kept as its [str(e)]. *)
Inductive attempt (A : Type) : Type :=
| Done (a : A)
| Throws (message : string).
Arguments Done {A} a.
Arguments Throws {A} message.

(** The Google client library and the key file, as the tool sees them.
    Every call may raise.  [connect] is the two imports, the loading of
    the credentials and the construction of the client; [run_query] is
    [client.query(q).result()] turned into rows and dumped as JSON;
    [insert_rows_json] returns the [repr] of each row error. *)
Class Service := {
  Client : Type;
  key_path : string;
  key_exists : bool;
  connect : attempt Client;
  run_query : Client -> json -> attempt string;
  insert_rows_json : Client -> json -> json -> json -> attempt (list string);
  list_datasets : Client -> attempt string;
  list_tables : Client -> json -> attempt string
}.

(** Truth value of [kwargs.get(name)]; [None] is the absent argument. *)
Definition truthy (v : option json) : bool :=
  match v with
  | None | Some JNull => false
  | Some (JBool b) => b
  | Some (JInt n) => negb (Z.eqb n 0)
  | Some (JFloat bits) => negb (Z.eqb bits 0 || Z.eqb bits (2 ^ 63))
  | Some (JStr s) => PyStr.truthy s
  | Some (JList items) => match items with [] => false | _ => true end
  | Some (JDict items) => match items with [] => false | _ => true end
  end.

Definition arg (v : option json) : json :=
  match v with Some x => x | None => JNull end.

(** [f"{errors}"] for a list whose elements print as [reprs]. *)
Fixpoint comma_separated (reprs : list string) : string :=
  match reprs with
  | [] => EmptyString
  | [x] => x
  | x :: r => (x ++ ", " ++ comma_separated r)%string
  end.

Definition format_list (reprs : list string) : string :=
  ("[" ++ comma_separated reprs ++ "]")%string.

Section Tool.
Context {service : Service}.

(** [self.client]: the cached client. *)
Record BigQueryTool := mkTool { client : option Client }.

Definition _get_client (self : BigQueryTool) : attempt Client * BigQueryTool :=
  match client self with
  | Some c => (Done c, self)
  | None =>
      if negb key_exists then
        (Throws ("BigQuery key not found at " ++ key_path)%string, self)
      else
        match connect with
        | Done c => (Done c, mkTool (Some c))
        | Throws m => (Throws m, self)
        end
  end.

(** The body of the [try] block. *)
Definition execute_try (self : BigQueryTool) (operation : string)
    (kwargs : list (string * json)) : attempt string * BigQueryTool :=
  match _get_client self with
  | (Throws m, self) => (Throws m, self)
  | (Done client, self) =>
      let kw := fun name => Dict.get name kwargs in
      (if String.eqb operation "query" then
         let query := kw "query" in
         if negb (truthy query) then
           Done "Error: 'query' parameter is required for query operation"
         else run_query client (arg query)
       else if String.eqb operation "insert" then
         let dataset_id := kw "dataset_id" in
         let table_id := kw "table_id" in
         let rows := kw "rows" in
         if negb (truthy dataset_id && truthy table_id && truthy rows) then
           Done "Error: 'dataset_id', 'table_id', and 'rows' are required for insert operation"
         else
           match insert_rows_json client (arg dataset_id) (arg table_id) (arg rows) with
           | Throws m => Throws m
           | Done [] => Done "Success: Rows inserted"
           | Done errors =>
               Done ("Error inserting rows: " ++ format_list errors)%string
           end
       else if String.eqb operation "list_datasets" then list_datasets client
       else if String.eqb operation "list_tables" then
         let dataset_id := kw "dataset_id" in
         if negb (truthy dataset_id) then
           Done "Error: 'dataset_id' is required for list_tables operation"
         else list_tables client (arg dataset_id)
       else Done ("Error: Unknown operation '" ++ operation ++ "'")%string,
       self)
  end.

(** [execute]: the [try] block under [except Exception as e]. *)
Definition execute (self : BigQueryTool) (operation : string)
    (kwargs : list (string * json)) : string * BigQueryTool :=
  match execute_try self operation kwargs with
  | (Done text, self) => (text, self)
  | (Throws m, self) => (("Error: " ++ m)%string, self)
  end.

End Tool.
End BigQuery.

(** ** Vocabulary of the statements *)

(** No two uppercase letters next to each other. *)
Fixpoint no_adjacent_upper (k : string) : bool :=
  match k with
  | EmptyString => true
  | String c r =>
      match r with
      | EmptyString => true
      | String d _ => negb (PyStr.isupper c && PyStr.isupper d) && no_adjacent_upper r
      end
  end.

(** [title] gives the text back: no lowercase letter comes directly after a
    character that is not a letter ([previous_is_cased] speaks for the
    character before the text). *)
Fixpoint title_stable (previous_is_cased : bool) (s : string) : bool :=
  match s with
  | EmptyString => true
  | String c r =>
      (negb (PyStr.islower c) || previous_is_cased) && title_stable (PyStr.isalpha c) r
  end.

(** From the first uppercase letter on, the text is [title_stable]. *)
Fixpoint stable_after_first_upper (s : string) : bool :=
  match s with
  | EmptyString => true
  | String c r => if PyStr.isupper c then title_stable true r else stable_after_first_upper r
  end.

(** The keys that survive [camel_to_snake] followed by [snake_to_camel]:
    the first character is not an uppercase letter and, after the first
    uppercase letter, no lowercase letter directly follows a digit. *)
Definition round_trips (k : string) : bool :=
  match k with
  | EmptyString => true
  | String c r => negb (PyStr.isupper c) && stable_after_first_upper r
  end.

(** A character of an internal (snake form) key: lowercase letter, digit,
    or the separator. *)
Definition lower_or_digit (c : ascii) : bool := PyStr.islower c || PyStr.isdigit c.

Definition snake_char (c : ascii) : bool := lower_or_digit c || Ascii.eqb c "_".

Definition starts_with_separator (s : string) : bool :=
  match s with
  | String c _ => Ascii.eqb c "_"
  | EmptyString => false
  end.

(** [split] followed by [title] on every part but the first, which goes
    through [first]. *)
Definition retitle (first : string -> string) (s : string) : string :=
  match PyStr.split "_" s with
  | [] => EmptyString
  | h :: t => (first h ++ PyStr.join (map PyStr.title t))%string
  end.

(** What follows a separator in the output: letters and digits, [title]
    stable whatever precedes. *)
Definition titled (R : string) : Prop :=
  PyStr.forallb PyStr.isalnum R = true /\ forall q, title_stable q R = true.

(** The node at [path] of a document, going through mappings only. *)
Fixpoint lookup (path : list string) (data : json) : option json :=
  match path with
  | [] => Some data
  | k :: rest =>
      match data with
      | JDict items =>
          match Dict.get k items with
          | Some v => lookup rest v
          | None => None
          end
      | _ => None
      end
  end.

(** The legacy place and the current place of the restriction flag. *)
Definition legacy_flag : list string := ["tools"; "exec"; "restrictToWorkspace"].
Definition current_flag : list string := ["tools"; "restrictToWorkspace"].

Definition not_a_mapping (data : json) : bool :=
  match data with
  | JDict _ => false
  | _ => true
  end.

(** The document is a mapping; its ["tools"] entry, when there is one, is a
    mapping; the ["exec"] entry of that, when there is one, is a mapping. *)
Definition sections_are_mappings (data : json) : bool :=
  match data with
  | JDict top =>
      match Dict.get "tools" top with
      | None => true
      | Some (JDict tools_items) =>
          match Dict.get "exec" tools_items with
          | None | Some (JDict _) => true
          | Some _ => false
          end
      | Some _ => false
      end
  | _ => false
  end.

(** The paths a move of the flag concerns: the two places of the flag with
    everything below them, and the three mappings above them. *)
Definition on_the_move (path : list string) : bool :=
  match path with
  | [] => true
  | k1 :: below_top =>
      String.eqb k1 "tools" &&
      match below_top with
      | [] => true
      | k2 :: below_tools =>
          String.eqb k2 "restrictToWorkspace" ||
          (String.eqb k2 "exec" &&
           match below_tools with
           | [] => true
           | k3 :: _ => String.eqb k3 "restrictToWorkspace"
           end)
      end
  end.

(** *** Overrides *)

(** A variable that is unset or empty. *)
Definition unset (environ : Environ) (name : string) : bool :=
  match environ name with
  | Some s => negb (PyStr.truthy s)
  | None => true
  end.

(** The configuration fields [_apply_env_overrides] can write. *)
Inductive field : Type :=
| groq_api_key
| openrouter_api_key
| openai_api_key
| anthropic_api_key
| deepseek_api_key
| gemini_api_key
| zhipu_api_key
| agent_model
| agent_workspace
| telegram_token
| telegram_enabled
| telegram_allow_from
| whatsapp_enabled
| whatsapp_allow_from
| channel_enabled (section : string)
| web_search_api_key.

Inductive value : Type :=
| VStr (s : string)
| VBool (b : bool)
| VList (l : list string)
| VAbsent.

Definition read (f : field) (config : Config) : value :=
  let p := providers config in
  let d := AgentsConfig.defaults (agents config) in
  let t := ChannelsConfig.telegram (channels config) in
  let w := ChannelsConfig.whatsapp (channels config) in
  match f with
  | groq_api_key => VStr (ProviderConfig.api_key (ProvidersConfig.groq p))
  | openrouter_api_key => VStr (ProviderConfig.api_key (ProvidersConfig.openrouter p))
  | openai_api_key => VStr (ProviderConfig.api_key (ProvidersConfig.openai p))
  | anthropic_api_key => VStr (ProviderConfig.api_key (ProvidersConfig.anthropic p))
  | deepseek_api_key => VStr (ProviderConfig.api_key (ProvidersConfig.deepseek p))
  | gemini_api_key => VStr (ProviderConfig.api_key (ProvidersConfig.gemini p))
  | zhipu_api_key => VStr (ProviderConfig.api_key (ProvidersConfig.zhipu p))
  | agent_model => VStr (AgentDefaults.model d)
  | agent_workspace => VStr (AgentDefaults.workspace d)
  | telegram_token => VStr (TelegramConfig.token t)
  | telegram_enabled => VBool (TelegramConfig.enabled t)
  | telegram_allow_from => VList (TelegramConfig.allow_from t)
  | whatsapp_enabled => VBool (WhatsAppConfig.enabled w)
  | whatsapp_allow_from => VList (WhatsAppConfig.allow_from w)
  | channel_enabled section =>
      match Dict.get section (ChannelsConfig.others (channels config)) with
      | Some b => VBool b
      | None => VAbsent
      end
  | web_search_api_key =>
      VStr (WebSearchConfig.api_key (WebToolsConfig.search (ToolsConfig.web (tools config))))
  end.

(** The variables the code reads before it writes a field. *)
Definition override_variables (f : field) : list string :=
  match f with
  | groq_api_key => ["GROQ_API_KEY"; "LITELLM_GROQ_API_KEY"]
  | openrouter_api_key => ["OPENROUTER_API_KEY"]
  | openai_api_key => ["OPENAI_API_KEY"]
  | anthropic_api_key => ["ANTHROPIC_API_KEY"]
  | deepseek_api_key => ["DEEPSEEK_API_KEY"]
  | gemini_api_key => ["GEMINI_API_KEY"]
  | zhipu_api_key => ["ZHIPU_API_KEY"; "ZHIPUAI_API_KEY"]
  | agent_model => ["AGENT_MODEL"; "MODEL"]
  | agent_workspace => ["AGENT_WORKSPACE"]
  | telegram_token => ["TELEGRAM_TOKEN"]
  | telegram_enabled => ["TELEGRAM_TOKEN"; "CHANNELS"]
  | telegram_allow_from => ["ALLOWED_USERS"; "TELEGRAM_ALLOWED_USERS"]
  | whatsapp_enabled => ["WHATSAPP_ENABLED"; "CHANNELS"]
  | whatsapp_allow_from => ["WHATSAPP_ALLOWED_NUMBERS"]
  | channel_enabled _ => ["CHANNELS"]
  | web_search_api_key => ["ALEXZO_API_KEY"]
  end.

(** Every variable [_apply_env_overrides] reads. *)
Definition recognized_variables : list string :=
  ["GROQ_API_KEY"; "LITELLM_GROQ_API_KEY"; "OPENROUTER_API_KEY"; "OPENAI_API_KEY";
   "ANTHROPIC_API_KEY"; "DEEPSEEK_API_KEY"; "GEMINI_API_KEY"; "ZHIPU_API_KEY";
   "ZHIPUAI_API_KEY"; "AGENT_MODEL"; "MODEL"; "AGENT_WORKSPACE"; "AGENT_ENGINE";
   "TELEGRAM_TOKEN"; "ALLOWED_USERS"; "TELEGRAM_ALLOWED_USERS"; "WHATSAPP_ENABLED";
   "WHATSAPP_ALLOWED_NUMBERS"; "CHANNELS"; "ALEXZO_API_KEY"].

(** *** Sources *)

Section Sources.
Context {codec : JsonCodec} {schema : Schema}.

(** What the loader makes of what is at a candidate path. *)
Definition load_file (f : file) : result Config :=
  text <- read_text f ;; load_document text.

(** The candidate parses, migrates, normalizes and validates to [config]. *)
Definition yields (candidate : option file) (config : Config) : Prop :=
  exists f, candidate = Some f /\ load_file f = Ret config.

(** The inline variable does not yield a configuration object. *)
Definition inline_abstains (w : World) : Prop := snd (try_inline w) = Ret None.

(** The configuration of the first candidate, in the order of [paths],
    that parses, migrates, normalizes and validates. *)
Fixpoint first_yield (w : World) (paths : list Path) : option Config :=
  match paths with
  | [] => None
  | path :: rest =>
      match fs w path with
      | Some f =>
          match load_file f with
          | Ret config => Some config
          | Raise _ => first_yield w rest
          end
      | None => first_yield w rest
      end
  end.
End Sources.

(** *** Wire form *)

Definition is_scalar (data : json) : bool :=
  match data with
  | JList _ | JDict _ => false
  | _ => true
  end.

(** [wire] is [data] with [snake_to_camel] applied to every key of every
    mapping, at every depth: the keys of a mapping are the images of the
    keys it had, each once, and every value is the wire form of a value
    that stood under a key with that image. *)
#[warnings="-register-all"]
Inductive wire_form : json -> json -> Prop :=
| wire_scalar data : is_scalar data = true -> wire_form data data
| wire_list items items' :
    Forall2 wire_form items items' -> wire_form (JList items) (JList items')
| wire_dict items items' :
    (forall k, In k (Dict.keys items) -> In (snake_to_camel k) (Dict.keys items')) ->
    (forall k' v', In (k', v') items' ->
       exists k v, In (k, v) items /\ snake_to_camel k = k' /\ wire_form v v') ->
    NoDup (Dict.keys items') ->
    wire_form (JDict items) (JDict items').

(** The [enabled] flags are the only fields [enable_channel] writes. *)
Definition is_enabled_flag (f : field) : bool :=
  match f with
  | telegram_enabled | whatsapp_enabled | channel_enabled _ => true
  | _ => false
  end.

(** *** Tool failures *)

Module BigQuerySpec.
Import BigQuery.

Definition known_operations : list string :=
  ["query"; "insert"; "list_datasets"; "list_tables"].

Definition unknown_operation (operation : string) : Prop :=
  ~ In operation known_operations.

(** A parameter the operation requires is absent, or empty. *)
Definition missing_parameter (operation : string) (kwargs : list (string * json)) : Prop :=
  (operation = "query" /\ truthy (Dict.get "query" kwargs) = false) \/
  (operation = "insert" /\
   (truthy (Dict.get "dataset_id" kwargs) = false \/
    truthy (Dict.get "table_id" kwargs) = false \/
    truthy (Dict.get "rows" kwargs) = false)) \/
  (operation = "list_tables" /\ truthy (Dict.get "dataset_id" kwargs) = false).
End BigQuerySpec.

(** ** Examples *)

Module Examples.

(** A document in the legacy layout. *)
Definition legacy_document : json :=
  JDict [("agents", JDict []);
         ("tools",
          JDict [("exec", JDict [("timeout", JInt 60);
                                 ("restrictToWorkspace", JBool true)])])].

Definition plain_provider : ProviderConfig.t := ProviderConfig.mk "".

Definition plain_config : Config :=
  mkConfig
    (ProvidersConfig.mk plain_provider plain_provider plain_provider plain_provider
       plain_provider plain_provider plain_provider)
    (AgentsConfig.mk (AgentDefaults.mk "some-model" "~/.nanobot/workspace"))
    (ChannelsConfig.mk (TelegramConfig.mk false "" []) (WhatsAppConfig.mk false [])
       [("discord", false)])
    (ToolsConfig.mk (WebToolsConfig.mk (WebSearchConfig.mk ""))).

Definition no_variables : Environ := fun _ => None.

Definition deployment_variables : Environ :=
  fun name =>
    if String.eqb name "TELEGRAM_TOKEN" then Some "abc123"
    else if String.eqb name "GROQ_API_KEY" then Some "x"
    else if String.eqb name "LITELLM_GROQ_API_KEY" then Some "y"
    else None.

Definition litellm_only : Environ :=
  fun name => if String.eqb name "LITELLM_GROQ_API_KEY" then Some "y" else None.

(** A codec for the examples: it reads the two texts [{}] and [[]], and
    prints the structure of a document (no escapes in strings, a float by
    its bit pattern). *)
Definition example_loads (text : string) : option json :=
  if String.eqb text "{}" then Some (JDict [])
  else if String.eqb text "[]" then Some (JList [])
  else None.

Definition quote : string := String (ascii_of_nat 34) EmptyString.
Definition newline : string := String (ascii_of_nat 10) EmptyString.

Fixpoint spaces (n : nat) : string :=
  match n with
  | 0 => EmptyString
  | S k => String " " (spaces k)
  end.

Fixpoint example_print (indent level : nat) (data : json) : string :=
  let pad := spaces (indent * S level) in
  match data with
  | JNull => "null"
  | JBool true => "true"
  | JBool false => "false"
  | JInt n => NilZero.string_of_int (Z.to_int n)
  | JFloat bits => NilZero.string_of_int (Z.to_int bits)
  | JStr s => quote ++ s ++ quote
  | JList [] => "[]"
  | JList items =>
      "[" ++ newline ++
      (fix rows (l : list json) : string :=
         match l with
         | [] => EmptyString
         | [x] => pad ++ example_print indent (S level) x ++ newline
         | x :: r => pad ++ example_print indent (S level) x ++ "," ++ newline ++ rows r
         end) items
      ++ spaces (indent * level) ++ "]"
  | JDict [] => "{}"
  | JDict items =>
      "{" ++ newline ++
      (fix rows (l : list (string * json)) : string :=
         match l with
         | [] => EmptyString
         | [kv] =>
             pad ++ quote ++ fst kv ++ quote ++ ": "
             ++ example_print indent (S level) (snd kv) ++ newline
         | kv :: r =>
             pad ++ quote ++ fst kv ++ quote ++ ": "
             ++ example_print indent (S level) (snd kv) ++ "," ++ newline ++ rows r
         end) items
      ++ spaces (indent * level) ++ "}"
  end%string.

#[local] Instance example_codec : JsonCodec :=
  {| json_loads := example_loads;
     json_dumps := fun data indent => example_print indent 0 data |}.

(** A schema for the examples: every mapping validates; the model and the
    telegram token are read from it, the rest takes its default. *)
Definition example_validate (data : json) : option Config :=
  match data with
  | JDict _ =>
      let config := plain_config in
      let config :=
        match lookup ["agents"; "defaults"; "model"] data with
        | Some (JStr m) => set_agent_model m config
        | _ => config
        end in
      let config :=
        match lookup ["channels"; "telegram"; "token"] data with
        | Some (JStr t) => set_telegram_token t config
        | _ => config
        end in
      Some config
  | _ => None
  end.

Definition example_dump (config : Config) : json :=
  let t := ChannelsConfig.telegram (channels config) in
  JDict
    [("agents",
      JDict [("defaults",
              JDict [("model", JStr (AgentDefaults.model (AgentsConfig.defaults (agents config))));
                     ("workspace",
                      JStr (AgentDefaults.workspace (AgentsConfig.defaults (agents config))))])]);
     ("channels",
      JDict [("telegram",
              JDict [("enabled", JBool (TelegramConfig.enabled t));
                     ("token", JStr (TelegramConfig.token t));
                     ("allow_from", JList (map JStr (TelegramConfig.allow_from t)))])])].

#[local] Instance example_schema : Schema :=
  {| model_validate := example_validate;
     Config_default := plain_config;
     model_dump := example_dump |}.

Definition home_dir : Path := mkPath "/" ["home"; "user"].
Definition home_config : Path := mkPath "/" ["home"; "user"; ".nanobot"; "config.json"].
Definition cwd_config : Path := mkPath "" ["config.json"].
Definition explicit_config : Path := mkPath "/" ["etc"; "nanobot.json"].

Definition world (environ : Environ) (files : list (Path * file)) (read_only : bool)
    : World :=
  mkWorld environ home_dir
    (fun p =>
       match find (fun entry => Path_eqb (fst entry) p) files with
       | Some entry => Some (snd entry)
       | None => None
       end)
    (fun _ => read_only) (fun _ => read_only).

(** A broken file in the home directory, a good one in the current one. *)
Definition fallback_world : World :=
  world no_variables [(home_config, Text "{"); (cwd_config, Text "{}")] false.

(** The inline variable holds a JSON array. *)
Definition inline_array_world : World :=
  world (fun name => if String.eqb name "NANOBOT_CONFIG" then Some "[]" else None)
        [] false.

(** The home file holds a JSON array. *)
Definition file_array_world : World :=
  world no_variables [(home_config, Text "[]"); (cwd_config, Text "{}")] false.

(** The home file cannot be opened. *)
Definition unreadable_world : World :=
  world no_variables [(home_config, Unreadable); (cwd_config, Text "{}")] false.

Definition empty_world : World := world no_variables [] false.
Definition read_only_world : World := world no_variables [] true.

(** A BigQuery service without a key file, and one that answers. *)
Definition no_key_service : BigQuery.Service :=
  {| BigQuery.Client := unit;
     BigQuery.key_path := "/home/user/.nanobot/bigquery-key.json";
     BigQuery.key_exists := false;
     BigQuery.connect := BigQuery.Throws "unreachable";
     BigQuery.run_query := fun _ _ => BigQuery.Throws "unreachable";
     BigQuery.insert_rows_json := fun _ _ _ _ => BigQuery.Throws "unreachable";
     BigQuery.list_datasets := fun _ => BigQuery.Throws "unreachable";
     BigQuery.list_tables := fun _ _ => BigQuery.Throws "unreachable" |}.

Definition answering_service : BigQuery.Service :=
  {| BigQuery.Client := unit;
     BigQuery.key_path := "/home/user/.nanobot/bigquery-key.json";
     BigQuery.key_exists := true;
     BigQuery.connect := BigQuery.Done tt;
     BigQuery.run_query := fun _ _ => BigQuery.Throws "400 Syntax error";
     BigQuery.insert_rows_json := fun _ _ _ _ => BigQuery.Done [];
     BigQuery.list_datasets := fun _ => BigQuery.Done "[]";
     BigQuery.list_tables := fun _ _ => BigQuery.Done "[]" |}.

End Examples.

(** *** Shapes of keys *)

(** No uppercase letter in the key. *)
Definition no_upper (k : string) : bool :=
  PyStr.forallb (fun c => negb (PyStr.isupper c)) k.

(** No separator in the key. *)
Definition no_separator (k : string) : bool :=
  PyStr.forallb (fun c => negb (Ascii.eqb c "_")) k.

(** A part of an internal key that follows a separator and survives the two
    transforms: it begins with a lowercase letter, is made of lowercase
    letters and digits, and has no lowercase letter directly after a
    digit. *)
Definition snake_part (p : string) : bool :=
  match p with
  | EmptyString => false
  | String c r =>
      PyStr.islower c && PyStr.forallb lower_or_digit r && title_stable true r
  end.

(** An internal key that survives [snake_to_camel] followed by
    [camel_to_snake]: lowercase letters and digits in parts joined by single
    separators, the first part not empty (unless it is the whole key), every
    later part a [snake_part]. *)
Definition snake_key (s : string) : bool :=
  match PyStr.split "_" s with
  | [] => false
  | first :: components =>
      PyStr.forallb lower_or_digit first
      && (PyStr.truthy first || match components with [] => true | _ => false end)
      && forallb snake_part components
  end.

(** [sep.join(parts)] for the separator of internal keys. *)
Definition join_parts (parts : list string) : string :=
  match parts with
  | [] => EmptyString
  | first :: components => (first ++ PyStr.join (map (String "_") components))%string
  end.

(** *** Shapes of documents *)

(** The value of the last entry of a mapping whose key is sent to [k'] by
    the key transform [phi]. *)
Definition last_entry (phi : string -> string) (k' : string)
    (items : list (string * json)) : option json :=
  option_map snd (find (fun kv => String.eqb (phi (fst kv)) k') (rev items)).

Fixpoint distinct (l : list string) : bool :=
  match l with
  | [] => true
  | x :: r => negb (existsb (String.eqb x) r) && distinct r
  end.

(** A document in the internal convention: at every depth the keys of a
    mapping are distinct [snake_key]s. *)
Fixpoint snake_document (data : json) : bool :=
  match data with
  | JDict items =>
      distinct (Dict.keys items) &&
      (fix all (l : list (string * json)) : bool :=
         match l with
         | [] => true
         | kv :: r => snake_key (fst kv) && snake_document (snd kv) && all r
         end) items
  | JList items =>
      (fix all (l : list json) : bool :=
         match l with
         | [] => true
         | x :: r => snake_document x && all r
         end) items
  | _ => true
  end.

(** *** The overrides as a table *)

(** The value of a variable, when it is set and not empty. *)
Definition chosen (value : option string) : option string :=
  match value with
  | Some s => if PyStr.truthy s then Some s else None
  | None => None
  end.

(** The channel names the [CHANNELS] variable lists, trimmed and lowered. *)
Definition listed_channels (environ : Environ) : list string :=
  match chosen (environ "CHANNELS") with
  | Some channels_env =>
      map (fun c => PyStr.lower (PyStr.strip c)) (PyStr.split "," channels_env)
  | None => []
  end.

Definition mentions (names : list string) (name : string) : bool :=
  existsb (String.eqb name) names.

Definition or_flag (old : value) (b : bool) : value :=
  match old with
  | VBool b0 => VBool (b0 || b)
  | _ => old
  end.

Definition or_text (setting : option string) (old : value) : value :=
  match chosen setting with
  | Some s => VStr s
  | None => old
  end.

Definition or_list (setting : option string) (old : value) : value :=
  match chosen setting with
  | Some s => VList (split_and_strip s)
  | None => old
  end.

(** What the environment makes of a field that held [old]. *)
Definition effect (environ : Environ) (f : field) (old : value) : value :=
  match f with
  | groq_api_key =>
      or_text (py_or (environ "GROQ_API_KEY") (environ "LITELLM_GROQ_API_KEY")) old
  | openrouter_api_key => or_text (environ "OPENROUTER_API_KEY") old
  | openai_api_key => or_text (environ "OPENAI_API_KEY") old
  | anthropic_api_key => or_text (environ "ANTHROPIC_API_KEY") old
  | deepseek_api_key => or_text (environ "DEEPSEEK_API_KEY") old
  | gemini_api_key => or_text (environ "GEMINI_API_KEY") old
  | zhipu_api_key => or_text (py_or (environ "ZHIPU_API_KEY") (environ "ZHIPUAI_API_KEY")) old
  | agent_model => or_text (py_or (environ "AGENT_MODEL") (environ "MODEL")) old
  | agent_workspace => or_text (environ "AGENT_WORKSPACE") old
  | telegram_token => or_text (environ "TELEGRAM_TOKEN") old
  | telegram_enabled =>
      or_flag old
        (match chosen (environ "TELEGRAM_TOKEN") with Some _ => true | None => false end
         || mentions (listed_channels environ) "telegram")
  | telegram_allow_from =>
      or_list (py_or (environ "ALLOWED_USERS") (environ "TELEGRAM_ALLOWED_USERS")) old
  | whatsapp_enabled =>
      or_flag old
        (String.eqb (PyStr.lower (get_or environ "WHATSAPP_ENABLED" "")) "true"
         || mentions (listed_channels environ) "whatsapp")
  | whatsapp_allow_from => or_list (environ "WHATSAPP_ALLOWED_NUMBERS") old
  | channel_enabled section =>
      or_flag old
        (mentions (listed_channels environ) section
         && negb (String.eqb section "telegram") && negb (String.eqb section "whatsapp"))
  | web_search_api_key => or_text (environ "ALEXZO_API_KEY") old
  end.

(** The variables that can change what [_apply_env_overrides] returns. *)
Definition effective_variables : list string :=
  ["GROQ_API_KEY"; "LITELLM_GROQ_API_KEY"; "OPENROUTER_API_KEY"; "OPENAI_API_KEY";
   "ANTHROPIC_API_KEY"; "DEEPSEEK_API_KEY"; "GEMINI_API_KEY"; "ZHIPU_API_KEY";
   "ZHIPUAI_API_KEY"; "AGENT_MODEL"; "MODEL"; "AGENT_WORKSPACE";
   "TELEGRAM_TOKEN"; "ALLOWED_USERS"; "TELEGRAM_ALLOWED_USERS"; "WHATSAPP_ENABLED";
   "WHATSAPP_ALLOWED_NUMBERS"; "CHANNELS"; "ALEXZO_API_KEY"].

(** The number of separators in a text. *)
Fixpoint count_char (sep : ascii) (s : string) : nat :=
  match s with
  | EmptyString => 0
  | String c r => (if Ascii.eqb c sep then 1 else 0) + count_char sep r
  end.

(** What the [CHANNELS] loop makes of the channel sections besides
    telegram and whatsapp. *)
Definition enable_sections (names : list string) (others : list (string * bool))
    : list (string * bool) :=
  fold_left
    (fun o c =>
       if String.eqb c "telegram" || String.eqb c "whatsapp" then o
       else if Dict.contains c o then Dict.set c true o else o)
    names others.

(** The sections of a configuration object besides telegram and whatsapp. *)
Definition other_sections (config : Config) : list (string * bool) :=
  ChannelsConfig.others (channels config).

(** *** Warnings and the source that wins *)

Section Outcome.
Context {codec : JsonCodec} {schema : Schema}.

(** A warning is justified when the source it names is there and failed
    to load with the error it shows, one of those the loader catches. *)
Definition justified (w : World) (paths : list Path) (message : warning) : Prop :=
  match message with
  | WarnInline e =>
      exists text,
        chosen (environ w "NANOBOT_CONFIG") = Some text /\
        load_document text = Raise e /\ is_ValueError e = true
  | WarnPath path e =>
      In path paths /\
      exists f, fs w path = Some f /\ load_file f = Raise e /\ is_ValueError e = true
  end.

(** The configuration of the inline variable, when it is set, not empty,
    and parses, migrates, normalizes and validates. *)
Definition inline_yield (w : World) : option Config :=
  match chosen (environ w "NANOBOT_CONFIG") with
  | Some text =>
      match load_document text with
      | Ret config => Some config
      | Raise _ => None
      end
  | None => None
  end.

(** The configuration of the first source that loads, the inline variable
    before the candidate paths; the all-defaults one when none does. *)
Definition first_source (config_path : option Path) (w : World) : Config :=
  match inline_yield w with
  | Some config => config
  | None =>
      match first_yield w (candidate_paths config_path w) with
      | Some config => config
      | None => Config_default
      end
  end.
End Outcome.

(** ** Further examples *)

Module Scenarios.

(** The inline variable holds an empty mapping; the home file cannot be
    opened. *)
Definition inline_world : World :=
  Examples.world (fun name => if String.eqb name "NANOBOT_CONFIG" then Some "{}" else None)
    [(Examples.home_config, Unreadable)] false.

(** The same variable, and no file at all. *)
Definition inline_only_world : World :=
  Examples.world (fun name => if String.eqb name "NANOBOT_CONFIG" then Some "{}" else None)
    [] false.

(** The text [save_config] writes for the plain configuration. *)
Definition saved_document : json :=
  convert_to_camel (Examples.example_dump Examples.plain_config).

Definition saved_text : string := Examples.example_print 2 0 saved_document.

(** A codec that also reads that text back. *)
Definition reading_loads (text : string) : option json :=
  if String.eqb text saved_text then Some saved_document
  else Examples.example_loads text.

#[local] Instance reading_codec : JsonCodec :=
  {| json_loads := reading_loads;
     json_dumps := fun data indent => Examples.example_print indent 0 data |}.

End Scenarios.

(** *** ASCII keys *)

(** [k.isascii()]: every character of the key has a code point below 128.
    On such keys the built-ins of [PyStr] are Python's. *)
Definition ascii_key (k : string) : bool :=
  PyStr.forallb (fun c => nat_of_ascii c <? 128) k.

(** Every key of every mapping of the document, at every depth, is an
    [ascii_key]. *)
Fixpoint ascii_keys (data : json) : bool :=
  match data with
  | JDict items =>
      (fix all (l : list (string * json)) : bool :=
         match l with
         | [] => true
         | kv :: r => ascii_key (fst kv) && ascii_keys (snd kv) && all r
         end) items
  | JList items =>
      (fix all (l : list json) : bool :=
         match l with
         | [] => true
         | x :: r => ascii_keys x && all r
         end) items
  | _ => true
  end.

(** * Properties *)

(** ** Characters *)

Ltac by_cases_on_char c :=
  destruct c as [[] [] [] [] [] [] [] []]; vm_compute; intros;
  try reflexivity; try discriminate; try congruence.

Lemma upper_lower_char c : PyStr.isupper c = true -> PyStr.upper_char (PyStr.lower_char c) = c.
Proof. by_cases_on_char c. Qed.

Lemma lower_char_fixed c : PyStr.isupper c = false -> PyStr.lower_char c = c.
Proof. unfold PyStr.lower_char. now intros ->. Qed.

Lemma upper_char_fixed c : PyStr.islower c = false -> PyStr.upper_char c = c.
Proof. unfold PyStr.upper_char. now intros ->. Qed.

Lemma upper_char_moves c : PyStr.islower c = true -> PyStr.upper_char c <> c.
Proof. by_cases_on_char c. Qed.

Lemma lower_char_moves c : PyStr.isupper c = true -> PyStr.lower_char c <> c.
Proof. by_cases_on_char c. Qed.

Lemma isupper_not_islower c : PyStr.isupper c = true -> PyStr.islower c = false.
Proof. by_cases_on_char c. Qed.

Lemma isupper_isalpha c : PyStr.isupper c = true -> PyStr.isalpha c = true.
Proof. unfold PyStr.isalpha. now intros ->. Qed.

Lemma lower_char_separator c :
  PyStr.isalnum c = true -> Ascii.eqb (PyStr.lower_char c) "_" = false.
Proof. by_cases_on_char c. Qed.

Lemma isalnum_separator c : PyStr.isalnum c = true -> Ascii.eqb c "_" = false.
Proof. by_cases_on_char c. Qed.

Lemma isalpha_lower_char c : PyStr.isalpha (PyStr.lower_char c) = PyStr.isalpha c.
Proof. by_cases_on_char c. Qed.

Lemma isalpha_upper_char c : PyStr.isalpha (PyStr.upper_char c) = PyStr.isalpha c.
Proof. by_cases_on_char c. Qed.

(** ** The two key transforms *)

Lemma camel_to_snake_from_S r :
  forall i, camel_to_snake_from (S i) r = camel_to_snake_from 1 r.
Proof.
  induction r as [|c r IH]; intro i; [reflexivity|].
  cbn. rewrite (IH (S i)), (IH 1). reflexivity.
Qed.

Lemma camel_to_snake_cons c r :
  camel_to_snake (String c r) = String (PyStr.lower_char c) (camel_to_snake_from 1 r).
Proof. unfold camel_to_snake. cbn. now rewrite andb_false_r. Qed.

Lemma camel_to_snake_from_1_cons c r :
  camel_to_snake_from 1 (String c r) =
  if PyStr.isupper c
  then String "_" (String (PyStr.lower_char c) (camel_to_snake_from 1 r))
  else String (PyStr.lower_char c) (camel_to_snake_from 1 r).
Proof. cbn. now rewrite camel_to_snake_from_S, andb_true_r. Qed.

Lemma split_not_nil sep s : PyStr.split sep s <> [].
Proof.
  destruct s as [|c r]; cbn; [discriminate|].
  destruct (Ascii.eqb c sep); [discriminate|].
  destruct (PyStr.split sep r); discriminate.
Qed.

Lemma retitle_separator f s :
  retitle f (String "_" s) = (f EmptyString ++ retitle PyStr.title s)%string.
Proof.
  unfold retitle. cbn.
  destruct (PyStr.split "_" s) eqn:E; [now apply split_not_nil in E|].
  reflexivity.
Qed.

Lemma retitle_other f c s :
  Ascii.eqb c "_" = false ->
  retitle f (String c s) = retitle (fun h => f (String c h)) s.
Proof.
  intro Hc. unfold retitle. cbn. rewrite Hc.
  destruct (PyStr.split "_" s) eqn:E; [now apply split_not_nil in E|].
  reflexivity.
Qed.

Lemma retitle_push f a s :
  retitle (fun h => String a (f h)) s = String a (retitle f s).
Proof.
  unfold retitle.
  destruct (PyStr.split "_" s) eqn:E; [now apply split_not_nil in E|].
  reflexivity.
Qed.

Lemma snake_to_camel_retitle s : snake_to_camel s = retitle (fun h => h) s.
Proof. reflexivity. Qed.

(** Inside a part that follows a separator: [title] restores the text
    exactly when the text is [title_stable]. *)
Lemma retitle_title_from r :
  forall previous_is_cased,
    PyStr.forallb PyStr.isalnum r = true ->
    retitle (PyStr.title_from previous_is_cased) (camel_to_snake_from 1 r) = r
    <-> title_stable previous_is_cased r = true.
Proof.
  induction r as [|c r IH]; intros p Hr.
  - cbn. tauto.
  - cbn in Hr. apply andb_true_iff in Hr as [Hc Hr].
    rewrite camel_to_snake_from_1_cons.
    destruct (PyStr.isupper c) eqn:U.
    + rewrite retitle_separator, (retitle_other _ _ _ (lower_char_separator c Hc)).
      change (fun h => PyStr.title (String (PyStr.lower_char c) h))
        with (fun h => String (PyStr.upper_char (PyStr.lower_char c))
                         (PyStr.title_from (PyStr.isalpha (PyStr.lower_char c)) h)).
      rewrite retitle_push, (upper_lower_char c U), isalpha_lower_char.
      cbn [PyStr.title_from append title_stable].
      rewrite (isupper_isalpha c U), (isupper_not_islower c U). cbn [negb orb andb].
      rewrite <- (IH true Hr).
      split; [now intros [= ->]|now intros ->].
    + rewrite (lower_char_fixed c U), (retitle_other _ _ _ (isalnum_separator c Hc)).
      change (fun h => PyStr.title_from p (String c h))
        with (fun h => String (if p then PyStr.lower_char c else PyStr.upper_char c)
                         (PyStr.title_from (PyStr.isalpha c) h)).
      rewrite retitle_push. cbn [title_stable].
      rewrite andb_true_iff, <- (IH (PyStr.isalpha c) Hr).
      destruct p; cbn [negb orb].
      * rewrite (lower_char_fixed c U), orb_true_r.
        split; [intros [= ->]; now split|now intros [_ ->]].
      * rewrite orb_false_r. destruct (PyStr.islower c) eqn:L; cbn [negb].
        -- split; [intros [= Hx _]; now apply upper_char_moves in Hx|now intros [? _]].
        -- rewrite (upper_char_fixed c L).
           split; [intros [= ->]; now split|now intros [_ ->]].
Qed.

(** In the first part, which [snake_to_camel] keeps verbatim. *)
Lemma retitle_verbatim r :
  PyStr.forallb PyStr.isalnum r = true ->
  retitle (fun h => h) (camel_to_snake_from 1 r) = r
  <-> stable_after_first_upper r = true.
Proof.
  induction r as [|c r IH]; intro Hr.
  - cbn. tauto.
  - cbn in Hr. apply andb_true_iff in Hr as [Hc Hr].
    rewrite camel_to_snake_from_1_cons. cbn [stable_after_first_upper].
    destruct (PyStr.isupper c) eqn:U.
    + rewrite retitle_separator, (retitle_other _ _ _ (lower_char_separator c Hc)).
      change (fun h => PyStr.title (String (PyStr.lower_char c) h))
        with (fun h => String (PyStr.upper_char (PyStr.lower_char c))
                         (PyStr.title_from (PyStr.isalpha (PyStr.lower_char c)) h)).
      rewrite retitle_push, (upper_lower_char c U), isalpha_lower_char,
        (isupper_isalpha c U).
      cbn [append]. rewrite <- (retitle_title_from r true Hr).
      split; [now intros [= ->]|now intros ->].
    + rewrite (lower_char_fixed c U), (retitle_other _ _ _ (isalnum_separator c Hc)).
      rewrite (retitle_push (fun h => h)), <- (IH Hr).
      split; [now intros [= ->]|now intros ->].
Qed.

(** The keys of letters and digits that come back unchanged are exactly the
    [round_trips] ones. *)
Lemma round_trip_iff k :
  PyStr.forallb PyStr.isalnum k = true ->
  snake_to_camel (camel_to_snake k) = k <-> round_trips k = true.
Proof.
  destruct k as [|c r]; intro Hk; [cbn; tauto|].
  cbn in Hk. apply andb_true_iff in Hk as [Hc Hr].
  rewrite camel_to_snake_cons, snake_to_camel_retitle,
    (retitle_other _ _ _ (lower_char_separator c Hc)), (retitle_push (fun h => h)).
  cbn [round_trips]. rewrite andb_true_iff, <- (retitle_verbatim r Hr).
  destruct (PyStr.isupper c) eqn:U; cbn [negb].
  - split; [intros [= Hx _]; now apply lower_char_moves in Hx|now intros [? _]].
  - rewrite (lower_char_fixed c U).
    split; [intros [= ->]; now split|now intros [_ ->]].
Qed.

(** ** Keys written by [snake_to_camel] *)

Lemma islower_upper_char c : PyStr.islower (PyStr.upper_char c) = false.
Proof. by_cases_on_char c. Qed.

Lemma lower_or_digit_not_upper c : lower_or_digit c = true -> PyStr.isupper c = false.
Proof. by_cases_on_char c. Qed.

Lemma lower_or_digit_title_char c (p : bool) :
  lower_or_digit c = true ->
  PyStr.isalnum (if p then PyStr.lower_char c else PyStr.upper_char c) = true.
Proof. destruct p; by_cases_on_char c. Qed.

Lemma lower_or_digit_isalnum c : lower_or_digit c = true -> PyStr.isalnum c = true.
Proof. by_cases_on_char c. Qed.

Lemma snake_char_cases c :
  snake_char c = true ->
  c = "_"%char \/ (Ascii.eqb c "_" = false /\ lower_or_digit c = true).
Proof. by_cases_on_char c; auto. Qed.

Lemma title_stable_after_first_upper s :
  forall q, title_stable q s = true -> stable_after_first_upper s = true.
Proof.
  induction s as [|c s IH]; intros q Hs; [reflexivity|].
  cbn in Hs |- *. apply andb_true_iff in Hs as [_ Hs].
  destruct (PyStr.isupper c) eqn:U.
  - now rewrite (isupper_isalpha c U) in Hs.
  - eauto.
Qed.

Lemma titled_empty : titled EmptyString.
Proof. split; reflexivity. Qed.

Lemma title_from_titled h :
  forall (p q : bool) R,
    PyStr.forallb lower_or_digit h = true -> titled R -> (p = true -> q = true) ->
    PyStr.forallb PyStr.isalnum (PyStr.title_from p h ++ R) = true /\
    title_stable q (PyStr.title_from p h ++ R) = true.
Proof.
  induction h as [|c h IH]; intros p q R Hh [HR1 HR2] Hpq.
  - cbn. auto.
  - cbn in Hh. apply andb_true_iff in Hh as [Hc Hh].
    destruct (IH (PyStr.isalpha c) (PyStr.isalpha c) R Hh (conj HR1 HR2) (fun e => e))
      as [IH1 IH2].
    cbn [PyStr.title_from append PyStr.forallb title_stable].
    rewrite (lower_or_digit_title_char c p Hc), IH1. split; [reflexivity|].
    replace (PyStr.isalpha (if p then PyStr.lower_char c else PyStr.upper_char c))
      with (PyStr.isalpha c)
      by (destruct p; [now rewrite isalpha_lower_char|now rewrite isalpha_upper_char]).
    rewrite IH2, andb_true_r.
    destruct p; [now rewrite Hpq, orb_true_r|].
    now rewrite islower_upper_char.
Qed.

Lemma title_titled h R :
  PyStr.forallb lower_or_digit h = true -> titled R -> titled (PyStr.title h ++ R).
Proof.
  intros Hh HR. split.
  - apply (title_from_titled h false false R Hh HR). discriminate.
  - intro q. apply (title_from_titled h false q R Hh HR). discriminate.
Qed.

(** Every property that holds of [f h ++ R], for [h] a part and [R] the
    titled parts after it, holds of [retitle f s]. *)
Lemma retitle_snake s :
  forall (f : string -> string) (Q : string -> Prop),
    PyStr.forallb snake_char s = true ->
    (forall h R, PyStr.forallb lower_or_digit h = true -> titled R -> Q (f h ++ R)%string) ->
    Q (retitle f s).
Proof.
  induction s as [|c s IH]; intros f Q Hs Hf.
  - exact (Hf EmptyString EmptyString eq_refl titled_empty).
  - cbn in Hs. apply andb_true_iff in Hs as [Hc Hs].
    destruct (snake_char_cases c Hc) as [->|[Hsep Hld]].
    + rewrite retitle_separator. apply (Hf EmptyString); [reflexivity|].
      apply (IH PyStr.title titled Hs). intros h R. apply title_titled.
    + rewrite (retitle_other _ _ _ Hsep).
      apply (IH (fun h => f (String c h)) Q Hs). intros h R Hh HR.
      apply Hf; [|exact HR]. cbn. now rewrite Hld.
Qed.

Lemma verbatim_part h R :
  PyStr.forallb lower_or_digit h = true -> titled R ->
  PyStr.forallb PyStr.isalnum (h ++ R) = true /\ stable_after_first_upper (h ++ R) = true.
Proof.
  intros Hh [HR1 HR2]. induction h as [|c h IH].
  - cbn. split; [exact HR1|]. exact (title_stable_after_first_upper R true (HR2 true)).
  - cbn in Hh. apply andb_true_iff in Hh as [Hc Hh]. destruct (IH Hh) as [IH1 IH2].
    cbn. now rewrite (lower_or_digit_isalnum c Hc), IH1, (lower_or_digit_not_upper c Hc).
Qed.

(** A key written from a snake-form key is made of letters and digits and
    is one of the [round_trips] keys. *)
Lemma snake_to_camel_image s :
  PyStr.forallb snake_char s = true -> starts_with_separator s = false ->
  PyStr.forallb PyStr.isalnum (snake_to_camel s) = true /\
  round_trips (snake_to_camel s) = true.
Proof.
  destruct s as [|c s]; intros Hs Hstart; [split; reflexivity|].
  cbn in Hs, Hstart. apply andb_true_iff in Hs as [Hc Hs].
  destruct (snake_char_cases c Hc) as [->|[Hsep Hld]]; [discriminate|].
  rewrite snake_to_camel_retitle, (retitle_other _ _ _ Hsep), (retitle_push (fun h => h)).
  cbn [PyStr.forallb round_trips].
  rewrite (lower_or_digit_isalnum c Hld), (lower_or_digit_not_upper c Hld).
  cbn [negb andb]. apply (retitle_snake s (fun h => h)); [exact Hs|].
  intros h R. apply verbatim_part.
Qed.

(** C3 (amended).  For every key [k] made of ASCII letters and digits,
    [snake_to_camel (camel_to_snake k) = k] holds exactly when [k] does not
    begin with an uppercase letter and, after its first uppercase letter, no
    lowercase letter directly follows a digit (adjacent uppercase letters do
    no harm).  In particular it holds for every key that [snake_to_camel]
    writes from an internal key made of lowercase letters, digits and
    separators that does not begin with a separator. *)
Theorem C3_key_round_trip :
  (forall k, PyStr.forallb PyStr.isalnum k = true ->
     (snake_to_camel (camel_to_snake k) = k <-> round_trips k = true)) /\
  (forall s, PyStr.forallb snake_char s = true -> starts_with_separator s = false ->
     snake_to_camel (camel_to_snake (snake_to_camel s)) = snake_to_camel s).
Proof.
  split.
  - exact round_trip_iff.
  - intros s Hs Hstart. destruct (snake_to_camel_image s Hs Hstart) as [Hal Hrt].
    now apply round_trip_iff.
Qed.

Lemma C3_key_round_trip_witness :
  snake_to_camel (camel_to_snake "restrictToWorkspace") = "restrictToWorkspace" /\
  snake_to_camel (camel_to_snake (snake_to_camel "api_key")) = snake_to_camel "api_key".
Proof.
  split.
  - apply (proj1 C3_key_round_trip "restrictToWorkspace"); reflexivity.
  - apply (proj2 C3_key_round_trip "api_key"); reflexivity.
Defined.

(** C3 as stated fails: ["FooBar"] and ["fooA1b"] are made of letters and
    digits with no two adjacent uppercase letters, ["Foo"] is written by
    [snake_to_camel], and none of the three comes back. *)
Lemma C3_counterexample :
  (PyStr.forallb PyStr.isalnum "FooBar" = true /\ no_adjacent_upper "FooBar" = true /\
   snake_to_camel (camel_to_snake "FooBar") = "fooBar" /\
   snake_to_camel (camel_to_snake "FooBar") <> "FooBar") /\
  (PyStr.forallb PyStr.isalnum "fooA1b" = true /\ no_adjacent_upper "fooA1b" = true /\
   snake_to_camel (camel_to_snake "fooA1b") = "fooA1B" /\
   snake_to_camel (camel_to_snake "fooA1b") <> "fooA1b") /\
  (snake_to_camel "_foo" = "Foo" /\
   snake_to_camel (camel_to_snake "Foo") = "foo" /\
   snake_to_camel (camel_to_snake "Foo") <> "Foo").
Proof. repeat split; try reflexivity; vm_compute; discriminate. Qed.

(** ** Dictionaries *)

Lemma get_set_same {V} k (v : V) d : Dict.get k (Dict.set k v d) = Some v.
Proof.
  induction d as [|[k' v'] d IH]; cbn.
  - now rewrite String.eqb_refl.
  - destruct (String.eqb k' k) eqn:E; cbn.
    + now rewrite String.eqb_refl.
    + now rewrite E.
Qed.

Lemma get_set_other {V} k k' (v : V) d :
  String.eqb k' k = false -> Dict.get k' (Dict.set k v d) = Dict.get k' d.
Proof.
  intro Hk. induction d as [|[k0 v0] d IH]; cbn.
  - now rewrite String.eqb_sym, Hk.
  - destruct (String.eqb k0 k) eqn:E; cbn.
    + apply String.eqb_eq in E. subst k0.
      now rewrite (String.eqb_sym k k'), Hk.
    + now rewrite IH.
Qed.

Lemma get_remove_same {V} k (d : list (string * V)) : Dict.get k (Dict.remove k d) = None.
Proof.
  induction d as [|[k0 v0] d IH]; cbn; [reflexivity|].
  destruct (String.eqb k0 k) eqn:E; cbn; [exact IH|].
  now rewrite E.
Qed.

Lemma get_remove_other {V} k k' (d : list (string * V)) :
  String.eqb k' k = false -> Dict.get k' (Dict.remove k d) = Dict.get k' d.
Proof.
  intro Hk. unfold Dict.remove.
  induction d as [|[k0 v0] d IH]; cbn; [reflexivity|].
  destruct (String.eqb k0 k) eqn:E; cbn.
  - apply String.eqb_eq in E. subst k0.
    now rewrite (String.eqb_sym k k'), Hk.
  - now rewrite IH.
Qed.

(** ** Migration *)

Lemma migrate_moves top tools_items exec_items v :
  Dict.get "tools" top = Some (JDict tools_items) ->
  Dict.get "exec" tools_items = Some (JDict exec_items) ->
  Dict.get "restrictToWorkspace" exec_items = Some v ->
  Dict.get "restrictToWorkspace" tools_items = None ->
  _migrate_config (JDict top) =
  Ret (JDict
         (Dict.set "tools"
            (JDict
               (Dict.set "restrictToWorkspace" v
                  (Dict.set "exec" (JDict (Dict.remove "restrictToWorkspace" exec_items))
                     tools_items)))
            top)).
Proof.
  intros Ht He Hv Hn. unfold _migrate_config, str_in, pop_str, bind, Dict.contains.
  rewrite Ht, He, Hv, Hn. reflexivity.
Qed.

Lemma lookup_moved top tools_items exec_items v path :
  Dict.get "tools" top = Some (JDict tools_items) ->
  Dict.get "exec" tools_items = Some (JDict exec_items) ->
  on_the_move path = false ->
  lookup path
    (JDict
       (Dict.set "tools"
          (JDict
             (Dict.set "restrictToWorkspace" v
                (Dict.set "exec" (JDict (Dict.remove "restrictToWorkspace" exec_items))
                   tools_items)))
          top))
  = lookup path (JDict top).
Proof.
  intros Ht He Hp.
  destruct path as [|k1 p1]; [discriminate|].
  cbn [lookup on_the_move] in *.
  destruct (String.eqb k1 "tools") eqn:E1.
  2:{ now rewrite (get_set_other _ _ _ _ E1). }
  apply String.eqb_eq in E1. subst k1. rewrite get_set_same, Ht.
  destruct p1 as [|k2 p2]; [discriminate|].
  cbn [lookup andb] in *.
  destruct (String.eqb k2 "restrictToWorkspace") eqn:E2; [discriminate|].
  rewrite (get_set_other _ _ _ _ E2).
  destruct (String.eqb k2 "exec") eqn:E3.
  2:{ now rewrite (get_set_other _ _ _ _ E3). }
  apply String.eqb_eq in E3. subst k2. rewrite get_set_same, He.
  destruct p2 as [|k3 p3]; [discriminate|].
  cbn [lookup orb andb] in *.
  now rewrite (get_remove_other _ _ _ Hp).
Qed.

Lemma migrate_config_returns data :
  sections_are_mappings data = true -> exists data', _migrate_config data = Ret data'.
Proof.
  intro Hs. destruct data as [| | | | | |top]; try discriminate.
  cbn in Hs. unfold _migrate_config.
  destruct (Dict.get "tools" top) as [[| | | | | |tools_items]|];
    try discriminate; [|cbn; eauto].
  destruct (Dict.get "exec" tools_items) as [[| | | | | |exec_items]|];
    try discriminate; [|cbn; eauto].
  unfold str_in, pop_str, bind, Dict.contains.
  destruct (Dict.get "restrictToWorkspace" exec_items);
    destruct (Dict.get "restrictToWorkspace" tools_items); cbn; eauto.
Qed.

(** C4 (amended).  For every raw document that is a mapping whose ["tools"]
    entry, when present, is a mapping whose ["exec"] entry, when present, is
    a mapping: when [tools.exec.restrictToWorkspace] is present and
    [tools.restrictToWorkspace] is absent, [_migrate_config] returns a
    document that has the value at [tools.restrictToWorkspace], no
    [tools.exec.restrictToWorkspace], and every other part as before; in
    every other case, in particular when [tools.restrictToWorkspace] is
    already present, it returns the document as it is, the legacy key and
    its value still in place. *)
Theorem C4_migrate_config data :
  sections_are_mappings data = true ->
  match lookup legacy_flag data, lookup current_flag data with
  | Some v, None =>
      exists data',
        _migrate_config data = Ret data' /\
        lookup current_flag data' = Some v /\
        lookup legacy_flag data' = None /\
        forall path, on_the_move path = false -> lookup path data' = lookup path data
  | _, _ => _migrate_config data = Ret data
  end.
Proof.
  intro Hs. destruct data as [| | | | | |top]; try discriminate.
  unfold legacy_flag, current_flag. cbn [lookup sections_are_mappings] in *.
  destruct (Dict.get "tools" top) as [tools|] eqn:Ht.
  2:{ unfold _migrate_config. rewrite Ht. reflexivity. }
  destruct tools as [| | | | | |tools_items]; try discriminate.
  destruct (Dict.get "exec" tools_items) as [exec_cfg|] eqn:He.
  2:{ unfold _migrate_config. rewrite Ht, He. cbn.
      destruct (Dict.get "restrictToWorkspace" tools_items); reflexivity. }
  destruct exec_cfg as [| | | | | |exec_items]; try discriminate.
  destruct (Dict.get "restrictToWorkspace" exec_items) as [v|] eqn:Hv.
  2:{ unfold _migrate_config, str_in, bind, Dict.contains. rewrite Ht, He, Hv. cbn.
      destruct (Dict.get "restrictToWorkspace" tools_items); reflexivity. }
  destruct (Dict.get "restrictToWorkspace" tools_items) as [w|] eqn:Hn.
  { cbn [lookup]. unfold _migrate_config, str_in, bind, Dict.contains.
    rewrite Ht, He, Hv, Hn. reflexivity. }
  eexists. split; [exact (migrate_moves _ _ _ _ Ht He Hv Hn)|].
  cbn [lookup]. rewrite !get_set_same.
  rewrite (get_set_other "restrictToWorkspace" "exec") by reflexivity.
  rewrite get_set_same, get_remove_same.
  repeat split. intros path Hp. now apply lookup_moved.
Qed.

Lemma C4_migrate_config_witness :
  exists data',
    _migrate_config Examples.legacy_document = Ret data' /\
    lookup current_flag data' = Some (JBool true) /\
    lookup legacy_flag data' = None /\
    forall path, on_the_move path = false ->
                 lookup path data' = lookup path Examples.legacy_document.
Proof. exact (C4_migrate_config Examples.legacy_document eq_refl). Defined.

(** C4 as stated fails on documents whose sections are not mappings: a
    top-level flag next to an ["exec"] entry that is a number, a ["tools"]
    entry that is a number, a document that is a sequence.  The code raises
    on each, where the claim has the document come back. *)
Lemma C4_counterexample :
  lookup current_flag
    (JDict [("tools", JDict [("restrictToWorkspace", JBool true); ("exec", JInt 5)])])
  = Some (JBool true) /\
  _migrate_config
    (JDict [("tools", JDict [("restrictToWorkspace", JBool true); ("exec", JInt 5)])])
  = Raise TypeError /\
  _migrate_config (JDict [("tools", JInt 5)]) = Raise AttributeError /\
  _migrate_config (JList []) = Raise AttributeError.
Proof. repeat split. Qed.

(** ** Overrides *)

Lemma if_set_unset value body config :
  match value with Some s => negb (PyStr.truthy s) | None => true end = true ->
  if_set value body config = config.
Proof.
  unfold if_set. destruct value as [s|]; [|reflexivity].
  now destruct (PyStr.truthy s).
Qed.

Lemma py_or_unset environ a b :
  unset environ a = true -> unset environ b = true ->
  match py_or (environ a) (environ b) with
  | Some s => negb (PyStr.truthy s)
  | None => true
  end = true.
Proof.
  unfold unset, py_or. intros Ha Hb.
  destruct (environ a) as [s|]; [|exact Hb].
  destruct (PyStr.truthy s); [discriminate|exact Hb].
Qed.

(** A statement guarded by a variable leaves alone every field its body
    leaves alone. *)
Lemma if_set_frame f value body config :
  (forall x c, read f (body x c) = read f c) ->
  read f (if_set value body config) = read f config.
Proof.
  intro Hbody. unfold if_set. destruct value as [s|]; [|reflexivity].
  destruct (PyStr.truthy s); [apply Hbody|reflexivity].
Qed.

Lemma if_frame f (b : bool) (body : Config -> Config) config :
  read f (body config) = read f config ->
  read f (if b then body config else config) = read f config.
Proof. now destruct b. Qed.

Lemma enable_channel_frame f config c :
  is_enabled_flag f = false -> read f (enable_channel config c) = read f config.
Proof.
  intro Hf. unfold enable_channel, set_section_enabled.
  destruct (hasattr_channels (channels config) c); [|reflexivity].
  destruct (String.eqb c "telegram"); [destruct f; try discriminate; reflexivity|].
  destruct (String.eqb c "whatsapp"); destruct f; try discriminate; reflexivity.
Qed.

Lemma enable_channels_frame f names :
  is_enabled_flag f = false ->
  forall config, read f (fold_left enable_channel names config) = read f config.
Proof.
  intro Hf. induction names as [|c names IH]; intro config; [reflexivity|].
  cbn [fold_left]. now rewrite IH, enable_channel_frame.
Qed.

(** [enable_channel] never takes a flag down. *)
Lemma enable_channel_telegram config c :
  read telegram_enabled config = VBool true ->
  read telegram_enabled (enable_channel config c) = VBool true.
Proof.
  intro Hon. unfold enable_channel, set_section_enabled.
  destruct (hasattr_channels (channels config) c); [|exact Hon].
  destruct (String.eqb c "telegram"); [reflexivity|].
  now destruct (String.eqb c "whatsapp").
Qed.

Lemma enable_channels_telegram names :
  forall config,
    read telegram_enabled config = VBool true ->
    read telegram_enabled (fold_left enable_channel names config) = VBool true.
Proof.
  induction names as [|c names IH]; intros config Hon; [exact Hon|].
  cbn [fold_left]. now apply IH, enable_channel_telegram.
Qed.

(** Passing over the statements that cannot write the field read. *)
Ltac pass_statement :=
  first
    [ rewrite if_set_frame
        by (intros; first [reflexivity | now apply enable_channels_frame])
    | rewrite if_frame by reflexivity ].

Lemma get_or_unset environ name :
  unset environ name = true -> get_or environ name "" = "".
Proof.
  unfold unset, get_or. destruct (environ name) as [s|]; [|reflexivity].
  now destruct s.
Qed.

Ltac split_unset :=
  repeat match goal with
    | H : Forall _ (_ :: _) |- _ => inversion H; subst; clear H
    | H : Forall _ [] |- _ => clear H
    end.

Ltac unset_statement :=
  first
    [ rewrite if_set_unset by (first [assumption | apply py_or_unset; assumption])
    | rewrite get_or_unset by assumption; cbn [PyStr.lower String.eqb] ].

(** C5.  When [TELEGRAM_TOKEN] is set and non-empty, the configuration that
    [_apply_env_overrides] returns has that value as the token of the
    telegram channel and the channel enabled, whatever the configuration it
    was given and whatever the other variables are. *)
Theorem C5_telegram_token environ config token :
  environ "TELEGRAM_TOKEN" = Some token -> PyStr.truthy token = true ->
  TelegramConfig.token
    (ChannelsConfig.telegram (channels (_apply_env_overrides environ config))) = token /\
  TelegramConfig.enabled
    (ChannelsConfig.telegram (channels (_apply_env_overrides environ config))) = true.
Proof.
  intros Hset Htruthy.
  assert (Htoken : read telegram_token (_apply_env_overrides environ config) = VStr token).
  { unfold _apply_env_overrides. repeat pass_statement.
    rewrite Hset. unfold if_set at 1. rewrite Htruthy. reflexivity. }
  assert (Henabled :
            read telegram_enabled (_apply_env_overrides environ config) = VBool true).
  { unfold _apply_env_overrides. pass_statement.
    unfold if_set at 1.
    assert (Hinner : forall c, read telegram_enabled
              (if_set (environ "TELEGRAM_TOKEN")
                 (fun token config => set_telegram_enabled true (set_telegram_token token config))
                 c) = VBool true).
    { intro c. rewrite Hset. unfold if_set. rewrite Htruthy. reflexivity. }
    destruct (environ "CHANNELS") as [channels_env|].
    2:{ repeat pass_statement. apply Hinner. }
    destruct (PyStr.truthy channels_env).
    2:{ repeat pass_statement. apply Hinner. }
    apply enable_channels_telegram. repeat pass_statement. apply Hinner. }
  cbn in Htoken, Henabled. injection Htoken as ->. injection Henabled as ->. now split.
Qed.

Lemma C5_telegram_token_witness :
  TelegramConfig.token
    (ChannelsConfig.telegram
       (channels (_apply_env_overrides Examples.deployment_variables Examples.plain_config)))
  = "abc123" /\
  TelegramConfig.enabled
    (ChannelsConfig.telegram
       (channels (_apply_env_overrides Examples.deployment_variables Examples.plain_config)))
  = true.
Proof.
  exact (C5_telegram_token Examples.deployment_variables Examples.plain_config "abc123"
           eq_refl eq_refl).
Defined.

Lemma groq_statement environ config key :
  py_or (environ "GROQ_API_KEY") (environ "LITELLM_GROQ_API_KEY") = Some key ->
  PyStr.truthy key = true ->
  ProviderConfig.api_key
    (ProvidersConfig.groq (providers (_apply_env_overrides environ config))) = key.
Proof.
  intros Hor Htruthy.
  assert (Hread : read groq_api_key (_apply_env_overrides environ config) = VStr key).
  { unfold _apply_env_overrides. repeat pass_statement.
    rewrite Hor. unfold if_set. rewrite Htruthy. reflexivity. }
  cbn in Hread. now injection Hread.
Qed.

(** C6.  When [GROQ_API_KEY] and [LITELLM_GROQ_API_KEY] are both set and
    non-empty, the Groq provider's [api_key] becomes the value of
    [GROQ_API_KEY]; so it does whenever [GROQ_API_KEY] is set and non-empty;
    the value of [LITELLM_GROQ_API_KEY] is used when [GROQ_API_KEY] is unset
    or empty. *)
Theorem C6_groq_first_alias_wins environ config :
  (forall x y,
     environ "GROQ_API_KEY" = Some x -> PyStr.truthy x = true ->
     environ "LITELLM_GROQ_API_KEY" = Some y -> PyStr.truthy y = true ->
     ProviderConfig.api_key
       (ProvidersConfig.groq (providers (_apply_env_overrides environ config))) = x) /\
  (forall x,
     environ "GROQ_API_KEY" = Some x -> PyStr.truthy x = true ->
     ProviderConfig.api_key
       (ProvidersConfig.groq (providers (_apply_env_overrides environ config))) = x) /\
  (forall y,
     unset environ "GROQ_API_KEY" = true ->
     environ "LITELLM_GROQ_API_KEY" = Some y -> PyStr.truthy y = true ->
     ProviderConfig.api_key
       (ProvidersConfig.groq (providers (_apply_env_overrides environ config))) = y).
Proof.
  assert (Hfirst : forall x,
            environ "GROQ_API_KEY" = Some x -> PyStr.truthy x = true ->
            ProviderConfig.api_key
              (ProvidersConfig.groq (providers (_apply_env_overrides environ config))) = x).
  { intros x Hx Htruthy. apply groq_statement; [|exact Htruthy].
    unfold py_or. now rewrite Hx, Htruthy. }
  repeat split.
  - intros x y Hx Htx _ _. now apply Hfirst.
  - exact Hfirst.
  - intros y Hunset Hy Htruthy. apply groq_statement; [|exact Htruthy].
    unfold unset in Hunset. unfold py_or.
    destruct (environ "GROQ_API_KEY") as [s|]; [|exact Hy].
    destruct (PyStr.truthy s); [discriminate|exact Hy].
Qed.

Lemma C6_groq_first_alias_wins_witness :
  ProviderConfig.api_key
    (ProvidersConfig.groq
       (providers (_apply_env_overrides Examples.deployment_variables Examples.plain_config)))
  = "x" /\
  ProviderConfig.api_key
    (ProvidersConfig.groq
       (providers (_apply_env_overrides Examples.litellm_only Examples.plain_config)))
  = "y".
Proof.
  split.
  - exact (proj1 (C6_groq_first_alias_wins Examples.deployment_variables Examples.plain_config)
             "x" "y" eq_refl eq_refl eq_refl eq_refl).
  - exact (proj2 (proj2 (C6_groq_first_alias_wins Examples.litellm_only Examples.plain_config))
             "y" eq_refl eq_refl eq_refl).
Defined.

(** C7.  [_apply_env_overrides] never clears a field: a field all of whose
    override variables are unset or empty keeps the value it had; when no
    recognized variable is set, the configuration comes back unchanged. *)
Theorem C7_overrides_never_clear environ config :
  (forall f,
     Forall (fun name => unset environ name = true) (override_variables f) ->
     read f (_apply_env_overrides environ config) = read f config) /\
  (Forall (fun name => unset environ name = true) recognized_variables ->
   _apply_env_overrides environ config = config).
Proof.
  split.
  - intros f Hunset.
    destruct f; cbn [override_variables] in Hunset; split_unset;
      unfold _apply_env_overrides;
      repeat first [pass_statement | unset_statement]; reflexivity.
  - intro Hunset. unfold recognized_variables in Hunset. split_unset.
    unfold _apply_env_overrides. repeat unset_statement. reflexivity.
Qed.

Lemma C7_overrides_never_clear_witness :
  read telegram_allow_from
    (_apply_env_overrides Examples.deployment_variables Examples.plain_config)
  = read telegram_allow_from Examples.plain_config /\
  _apply_env_overrides Examples.no_variables Examples.plain_config = Examples.plain_config.
Proof.
  split.
  - apply (proj1 (C7_overrides_never_clear Examples.deployment_variables Examples.plain_config)
             telegram_allow_from).
    repeat constructor.
  - apply (proj2 (C7_overrides_never_clear Examples.no_variables Examples.plain_config)).
    repeat constructor.
Defined.

(** ** The resolver *)

Section Resolver.
Context {codec : JsonCodec} {schema : Schema}.

Lemma migrate_not_a_mapping data :
  not_a_mapping data = true -> _migrate_config data = Raise AttributeError.
Proof. now destruct data. Qed.

Lemma load_document_not_a_mapping text data :
  json_loads text = Some data -> not_a_mapping data = true ->
  load_document text = Raise AttributeError.
Proof.
  intros Hloads Hdata. unfold load_document. rewrite Hloads. cbn.
  now rewrite (migrate_not_a_mapping data Hdata).
Qed.

(** C2 (not met by the code).  With no explicit path and the inline
    variable abstaining, [load_config] does not go on to the file
    [config.json] of the current directory when the home-directory file is
    there and fails in a way the handler does not catch: it holds a JSON
    document that is not a mapping, or it cannot be opened.  [load_config]
    raises instead, whatever the current directory holds, a valid file
    included, and the second candidate is never tried. *)
Theorem C2_fallback_raises (w : World) :
  inline_abstains w ->
  (forall text data,
     fs w (get_config_path w) = Some (Text text) ->
     json_loads text = Some data -> not_a_mapping data = true ->
     snd (load_config None w) = Raise AttributeError) /\
  (fs w (get_config_path w) = Some Unreadable ->
   snd (load_config None w) = Raise OSError).
Proof.
  unfold inline_abstains, load_config. intro Hinline.
  destruct (try_inline w) as [log1 r1]. cbn [snd] in Hinline. subst r1.
  cbn [candidate_paths try_paths]. split.
  - intros text data Hfs Hloads Hdata. rewrite Hfs. cbn [read_text bind].
    now rewrite (load_document_not_a_mapping _ _ Hloads Hdata).
  - intro Hfs. now rewrite Hfs.
Qed.

(** C1 (not met by the code).  [load_config] raises, with no warning
    printed, when the inline variable holds a JSON document that is not a
    mapping; when a candidate file that exists cannot be opened; and when
    a candidate file holds a JSON document that is not a mapping. *)
Theorem C1_load_config_raises (w : World) (config_path : option Path) :
  (forall text data,
     environ w "NANOBOT_CONFIG" = Some text -> PyStr.truthy text = true ->
     json_loads text = Some data -> not_a_mapping data = true ->
     load_config config_path w = ([], Raise AttributeError)) /\
  (forall p,
     environ w "NANOBOT_CONFIG" = None -> fs w p = Some Unreadable ->
     load_config (Some p) w = ([], Raise OSError)) /\
  (forall p text data,
     environ w "NANOBOT_CONFIG" = None -> fs w p = Some (Text text) ->
     json_loads text = Some data -> not_a_mapping data = true ->
     load_config (Some p) w = ([], Raise AttributeError)).
Proof.
  repeat split.
  - intros text data Henv Htruthy Hloads Hdata. unfold load_config, try_inline.
    now rewrite Henv, Htruthy, (load_document_not_a_mapping _ _ Hloads Hdata).
  - intros p Henv Hfs. unfold load_config, try_inline. rewrite Henv.
    cbn [candidate_paths try_paths]. now rewrite Hfs.
  - intros p text data Henv Hfs Hloads Hdata. unfold load_config, try_inline.
    rewrite Henv. cbn [candidate_paths try_paths]. rewrite Hfs. cbn [read_text bind].
    now rewrite (load_document_not_a_mapping _ _ Hloads Hdata).
Qed.

End Resolver.

Lemma C2_fallback_raises_witness :
  yields (codec := Examples.example_codec) (schema := Examples.example_schema)
    (fs Examples.file_array_world Examples.cwd_config) Examples.plain_config /\
  snd (load_config (codec := Examples.example_codec) (schema := Examples.example_schema)
         None Examples.file_array_world)
  = Raise AttributeError /\
  snd (load_config (codec := Examples.example_codec) (schema := Examples.example_schema)
         None Examples.unreadable_world)
  = Raise OSError.
Proof.
  split; [|split].
  - exists (Text "{}"). split; reflexivity.
  - exact (proj1 (C2_fallback_raises (codec := Examples.example_codec)
                    (schema := Examples.example_schema) Examples.file_array_world eq_refl)
             "[]" (JList []) eq_refl eq_refl eq_refl).
  - exact (proj2 (C2_fallback_raises (codec := Examples.example_codec)
                    (schema := Examples.example_schema) Examples.unreadable_world eq_refl)
             eq_refl).
Defined.

Lemma C1_load_config_raises_witness :
  load_config (codec := Examples.example_codec) (schema := Examples.example_schema)
    None Examples.inline_array_world
  = ([], Raise AttributeError) /\
  load_config (codec := Examples.example_codec) (schema := Examples.example_schema)
    (Some Examples.home_config) Examples.unreadable_world
  = ([], Raise OSError) /\
  load_config (codec := Examples.example_codec) (schema := Examples.example_schema)
    (Some Examples.home_config) Examples.file_array_world
  = ([], Raise AttributeError).
Proof.
  split; [|split].
  - exact (proj1 (C1_load_config_raises (codec := Examples.example_codec)
                    (schema := Examples.example_schema) Examples.inline_array_world None)
             "[]" (JList []) eq_refl eq_refl eq_refl eq_refl).
  - exact (proj1 (proj2 (C1_load_config_raises (codec := Examples.example_codec)
                           (schema := Examples.example_schema) Examples.unreadable_world None))
             Examples.home_config eq_refl eq_refl).
  - exact (proj2 (proj2 (C1_load_config_raises (codec := Examples.example_codec)
                           (schema := Examples.example_schema) Examples.file_array_world None))
             Examples.home_config "[]" (JList []) eq_refl eq_refl eq_refl eq_refl).
Defined.

(** ** Documents and their wire form *)

Lemma json_induction (P : json -> Prop) :
  (forall data, is_scalar data = true -> P data) ->
  (forall items, Forall P items -> P (JList items)) ->
  (forall items, Forall (fun kv => P (snd kv)) items -> P (JDict items)) ->
  forall data, P data.
Proof.
  intros Hscalar Hlist Hdict. fix IH 1. intros [| | | | |items|items].
  1-5: now apply Hscalar.
  - apply Hlist. revert items. fix IHitems 1. intros [|x items]; constructor.
    + apply IH.
    + apply IHitems.
  - apply Hdict. revert items. fix IHitems 1. intros [|kv items]; constructor.
    + apply IH.
    + apply IHitems.
Qed.

Lemma in_set {V} x k (v : V) d : In x (Dict.set k v d) -> x = (k, v) \/ In x d.
Proof.
  induction d as [|[k0 v0] d IH]; cbn.
  - intros [<-|[]]. now left.
  - destruct (String.eqb k0 k); cbn.
    + intros [<-|Hin]; auto.
    + intros [<-|Hin]; auto. destruct (IH Hin); auto.
Qed.

Lemma in_of_items_from {V} x (items d : list (string * V)) :
  In x (fold_left (fun d kv => Dict.set (fst kv) (snd kv) d) items d) ->
  In x d \/ In x items.
Proof.
  revert d. induction items as [|[k v] items IH]; intro d; cbn; [auto|].
  intro Hin. destruct (IH _ Hin) as [Hset|Hrest]; [|auto].
  destruct (in_set _ _ _ _ Hset) as [->|Hd]; auto.
Qed.

Lemma keys_set {V} k0 k (v : V) d :
  In k0 (Dict.keys (Dict.set k v d)) <-> k0 = k \/ In k0 (Dict.keys d).
Proof.
  unfold Dict.keys. induction d as [|[k1 v1] d IH]; cbn.
  - intuition.
  - destruct (String.eqb k1 k) eqn:E; cbn.
    + apply String.eqb_eq in E. subst k1. intuition.
    + rewrite IH. intuition.
Qed.

Lemma keys_of_items_from {V} k0 (items d : list (string * V)) :
  In k0 (Dict.keys (fold_left (fun d kv => Dict.set (fst kv) (snd kv) d) items d))
  <-> In k0 (Dict.keys d) \/ In k0 (map fst items).
Proof.
  revert d. induction items as [|[k v] items IH]; intro d; cbn [fold_left fst snd map In].
  - intuition.
  - rewrite IH, keys_set. intuition.
Qed.

Lemma nodup_set {V} k (v : V) d :
  NoDup (Dict.keys d) -> NoDup (Dict.keys (Dict.set k v d)).
Proof.
  induction d as [|[k0 v0] d IH]; cbn; intro Hd.
  - repeat constructor. intros [].
  - inversion Hd as [|? ? Hnotin Hrest]; subst.
    destruct (String.eqb k0 k) eqn:E; cbn.
    + apply String.eqb_eq in E. subst k0. now constructor.
    + constructor; [|now apply IH].
      intro Hin. apply keys_set in Hin as [->|Hin]; [|now apply Hnotin].
      now rewrite String.eqb_refl in E.
Qed.

Lemma nodup_of_items {V} (items : list (string * V)) : NoDup (Dict.keys (Dict.of_items items)).
Proof.
  unfold Dict.of_items.
  assert (Hfrom : forall d : list (string * V),
             NoDup (Dict.keys d) ->
             NoDup (Dict.keys (fold_left (fun d kv => Dict.set (fst kv) (snd kv) d) items d))).
  { induction items as [|[k v] items IH]; intros d Hd; cbn; [exact Hd|].
    now apply IH, nodup_set. }
  apply Hfrom. constructor.
Qed.

(** [convert_to_camel] gives the wire form. *)
Lemma convert_to_camel_wire_form data : wire_form data (convert_to_camel data).
Proof.
  induction data as [data Hscalar|items IH|items IH] using json_induction.
  - destruct data; try discriminate; now constructor.
  - cbn. apply wire_list. induction IH; constructor; assumption.
  - cbn. apply wire_dict.
    + intros k Hk. unfold Dict.of_items. apply keys_of_items_from. right.
      rewrite map_map. cbn. unfold Dict.keys in Hk.
      apply in_map_iff in Hk as [kv [<- Hkv]]. apply in_map_iff. now exists kv.
    + intros k' v' Hin. unfold Dict.of_items in Hin.
      apply in_of_items_from in Hin as [[]|Hin].
      apply in_map_iff in Hin as [[k v] [[= <- <-] Hkv]].
      exists k, v. repeat split; [exact Hkv|].
      rewrite Forall_forall in IH. exact (IH (k, v) Hkv).
    + apply nodup_of_items.
Qed.

(** ** The writer *)

Lemma parts_eqb_refl l : parts_eqb l l = true.
Proof. induction l as [|x l IH]; cbn; [reflexivity|]. now rewrite String.eqb_refl. Qed.

Lemma Path_eqb_refl p : Path_eqb p p = true.
Proof. unfold Path_eqb. now rewrite String.eqb_refl, parts_eqb_refl. Qed.

Lemma is_prefix_refl l : is_prefix l l = true.
Proof. induction l as [|x l IH]; cbn; [reflexivity|]. now rewrite String.eqb_refl. Qed.

Lemma Path_is_parent_or_self_refl p : Path_is_parent_or_self p p = true.
Proof. unfold Path_is_parent_or_self. now rewrite String.eqb_refl, is_prefix_refl. Qed.

Section Writer.
Context {codec : JsonCodec} {schema : Schema}.

(** C8.  [save_config] writes to the explicit path, or to the default
    home path when none is given.  When the parent directory cannot be
    made, or the file cannot be opened for writing, the error reaches the
    caller.  Otherwise, the parent directory exists afterwards and the
    file holds the JSON text, printed with indent 2, of the wire form of
    the full field representation [model_dump config]: the same
    document with [snake_to_camel] applied to every key of every mapping;
    nothing else that existed is touched. *)
Theorem C8_save_config (config : Config) (config_path : option Path) (w : World)
    (path : Path) :
  path = match config_path with Some p => p | None => get_config_path w end ->
  (mkdir_fails w (Path_parent path) = true ->
   save_config config config_path w = Raise OSError) /\
  (open_w_fails w path = true -> save_config config config_path w = Raise OSError) /\
  (mkdir_fails w (Path_parent path) = false -> open_w_fails w path = false ->
   exists wire w',
     wire_form (model_dump config) wire /\
     save_config config config_path w = Ret w' /\
     fs w' path = Some (Text (json_dumps wire 2)) /\
     fs w' (Path_parent path) <> None /\
     (forall p,
        Path_eqb p path = false ->
        fs w p <> None \/ Path_is_parent_or_self p (Path_parent path) = false ->
        fs w' p = fs w p) /\
     environ w' = environ w).
Proof.
  intros ->. unfold save_config.
  set (path := match config_path with Some p => p | None => get_config_path w end).
  split; [|split].
  - now intros ->.
  - intro Hopen. destruct (mkdir_fails w (Path_parent path)); [reflexivity|].
    cbn [open_w_fails mkdir_parents]. now rewrite Hopen.
  - intros Hmkdir Hopen. rewrite Hmkdir. cbn [open_w_fails mkdir_parents].
    rewrite Hopen.
    exists (convert_to_camel (model_dump config)). eexists.
    split; [apply convert_to_camel_wire_form|].
    split; [reflexivity|].
    cbn [fs write_text mkdir_parents environ]. repeat split.
    + now rewrite Path_eqb_refl.
    + destruct (Path_eqb (Path_parent path) path); [discriminate|].
      destruct (fs w (Path_parent path)); [discriminate|].
      now rewrite Path_is_parent_or_self_refl.
    + intros p Hp Hkept. rewrite Hp.
      destruct (fs w p) as [f|]; [reflexivity|].
      destruct Hkept as [Hsome| ->]; [now destruct Hsome|reflexivity].
Qed.

End Writer.

Lemma C8_save_config_witness :
  save_config (codec := Examples.example_codec) (schema := Examples.example_schema)
    Examples.plain_config None Examples.read_only_world
  = Raise OSError /\
  exists wire w',
    wire_form (model_dump (Schema := Examples.example_schema) Examples.plain_config) wire /\
    save_config (codec := Examples.example_codec) (schema := Examples.example_schema)
      Examples.plain_config (Some Examples.explicit_config) Examples.empty_world
    = Ret w' /\
    fs w' Examples.explicit_config
    = Some (Text (json_dumps (JsonCodec := Examples.example_codec) wire 2)) /\
    fs w' (Path_parent Examples.explicit_config) <> None /\
    (forall p,
       Path_eqb p Examples.explicit_config = false ->
       fs Examples.empty_world p <> None \/
       Path_is_parent_or_self p (Path_parent Examples.explicit_config) = false ->
       fs w' p = fs Examples.empty_world p) /\
    environ w' = environ Examples.empty_world.
Proof.
  split.
  - exact (proj1 (C8_save_config (codec := Examples.example_codec)
                    (schema := Examples.example_schema) Examples.plain_config None
                    Examples.read_only_world Examples.home_config eq_refl)
             eq_refl).
  - exact (proj2 (proj2 (C8_save_config (codec := Examples.example_codec)
                           (schema := Examples.example_schema) Examples.plain_config
                           (Some Examples.explicit_config) Examples.empty_world
                           Examples.explicit_config eq_refl))
             eq_refl eq_refl).
Defined.

(** ** The BigQuery tool *)

Section Tool.
Import BigQuery BigQuerySpec.
Context {service : Service}.

Lemma execute_of_try self operation kwargs :
  fst (execute self operation kwargs) =
  match fst (execute_try self operation kwargs) with
  | Done text => text
  | Throws m => ("Error: " ++ m)%string
  end.
Proof.
  unfold execute. now destruct (execute_try self operation kwargs) as [[text|m] self'].
Qed.

Lemma execute_try_no_client self operation kwargs m :
  fst (_get_client self) = Throws m ->
  fst (execute_try self operation kwargs) = Throws m.
Proof.
  unfold execute_try. destruct (_get_client self) as [[c|m'] self']; cbn; congruence.
Qed.

Lemma unknown_operation_eqb operation :
  unknown_operation operation ->
  String.eqb operation "query" = false /\ String.eqb operation "insert" = false /\
  String.eqb operation "list_datasets" = false /\
  String.eqb operation "list_tables" = false.
Proof.
  unfold unknown_operation, known_operations. intro Hnot.
  repeat split; apply String.eqb_neq; intros ->; apply Hnot; cbn; tauto.
Qed.

Lemma truthy_all a b c :
  truthy a = false \/ truthy b = false \/ truthy c = false ->
  negb (truthy a && truthy b && truthy c) = true.
Proof. intros [-> | [-> | ->]]; repeat (rewrite ?andb_false_r; cbn); reflexivity. Qed.

(** C9.  [execute] returns a text on every call.  An exception raised
    inside it comes back as ["Error: "] followed by its message, the
    missing key file included; and whenever an exception is raised, a
    required parameter is missing or the operation is unknown, the text
    returned begins with ["Error"]. *)
Theorem C9_execute_never_raises self operation kwargs :
  (exists text self', execute self operation kwargs = (text, self')) /\
  (forall m,
     fst (execute_try self operation kwargs) = Throws m ->
     fst (execute self operation kwargs) = ("Error: " ++ m)%string) /\
  (client self = None -> key_exists = false ->
   fst (execute self operation kwargs)
   = ("Error: BigQuery key not found at " ++ key_path)%string) /\
  ((exists m, fst (execute_try self operation kwargs) = Throws m) \/
   missing_parameter operation kwargs \/ unknown_operation operation ->
   String.prefix "Error" (fst (execute self operation kwargs)) = true).
Proof.
  split; [|split; [|split]].
  - destruct (execute self operation kwargs) as [text self']. now exists text, self'.
  - intros m Hm. now rewrite execute_of_try, Hm.
  - intros Hclient Hkey. rewrite execute_of_try.
    rewrite (execute_try_no_client self operation kwargs
               ("BigQuery key not found at " ++ key_path)%string); [reflexivity|].
    unfold _get_client. now rewrite Hclient, Hkey.
  - rewrite execute_of_try. intros [[m Hm]|Hcase]; [now rewrite Hm|].
    unfold execute_try in *.
    destruct (_get_client self) as [[c|m] self']; [|reflexivity]. cbn [fst].
    destruct Hcase as [[[-> Hq]|[[-> Hi]|[-> Hl]]]|Hunknown].
    + cbn. now rewrite Hq.
    + cbn. now rewrite (truthy_all _ _ _ Hi).
    + cbn. now rewrite Hl.
    + destruct (unknown_operation_eqb operation Hunknown) as [-> [-> [-> ->]]].
      reflexivity.
Qed.

End Tool.

Lemma C9_execute_never_raises_witness :
  fst (BigQuery.execute (service := Examples.no_key_service) (BigQuery.mkTool None)
         "list_datasets" [])
  = "Error: BigQuery key not found at /home/user/.nanobot/bigquery-key.json" /\
  fst (BigQuery.execute (service := Examples.answering_service) (BigQuery.mkTool None)
         "query" [("query", JStr "SELEC 1")])
  = "Error: 400 Syntax error" /\
  String.prefix "Error"
    (fst (BigQuery.execute (service := Examples.answering_service) (BigQuery.mkTool None)
            "drop_table" []))
  = true.
Proof.
  split; [|split].
  - exact (proj1 (proj2 (proj2 (C9_execute_never_raises (service := Examples.no_key_service)
                                  (BigQuery.mkTool None) "list_datasets" [])))
             eq_refl eq_refl).
  - exact (proj1 (proj2 (C9_execute_never_raises (service := Examples.answering_service)
                           (BigQuery.mkTool None) "query" [("query", JStr "SELEC 1")]))
             "400 Syntax error" eq_refl).
  - apply (proj2 (proj2 (proj2 (C9_execute_never_raises
                                  (service := Examples.answering_service)
                                  (BigQuery.mkTool None) "drop_table" [])))).
    right. right. unfold BigQuerySpec.unknown_operation, BigQuerySpec.known_operations.
    cbn. intros [H|[H|[H|[H|[]]]]]; discriminate H.
Defined.

(** ** Colliding keys *)

(** A comprehension over pairs in which a key occurs twice gives a mapping
    with fewer entries than there are pairs. *)
Lemma of_items_shrinks {V} (items : list (string * V)) l1 k l2 :
  map fst items = l1 ++ k :: l2 -> In k (l1 ++ l2) ->
  length (Dict.of_items items) < length items.
Proof.
  intros Hkeys Htwice.
  assert (Hincl : incl (Dict.keys (Dict.of_items items)) (l1 ++ l2)).
  { intros x Hx. unfold Dict.of_items in Hx.
    apply keys_of_items_from in Hx as [[]|Hx]. rewrite Hkeys in Hx.
    apply in_app_or in Hx as [Hx|[<-|Hx]]; [|exact Htwice|]; apply in_or_app; auto. }
  pose proof (NoDup_incl_length (nodup_of_items items) Hincl) as Hle.
  unfold Dict.keys in Hle. rewrite length_map, length_app in Hle.
  rewrite <- (length_map fst items), Hkeys, length_app. cbn. lia.
Qed.

(** C10.  [camel_to_snake] is not injective on ASCII identifiers:
    ["fooBar"] and ["FooBar"] are both sent to ["foo_bar"].  [convert_keys]
    turns a mapping with these two keys, in either order, into a mapping
    with the single key ["foo_bar"] that holds the value of the later of
    the two, the value of the earlier one being gone; and it turns every
    mapping that has both keys into one with distinct keys, ["foo_bar"]
    among them, and fewer entries. *)
Theorem C10_camel_to_snake_not_injective :
  "fooBar" <> "FooBar" /\
  camel_to_snake "fooBar" = "foo_bar" /\
  camel_to_snake "FooBar" = "foo_bar" /\
  (forall v1 v2,
     convert_keys (JDict [("fooBar", v1); ("FooBar", v2)])
     = JDict [("foo_bar", convert_keys v2)]) /\
  (forall v1 v2,
     convert_keys (JDict [("FooBar", v2); ("fooBar", v1)])
     = JDict [("foo_bar", convert_keys v1)]) /\
  (forall items,
     In "fooBar" (Dict.keys items) -> In "FooBar" (Dict.keys items) ->
     exists items',
       convert_keys (JDict items) = JDict items' /\
       NoDup (Dict.keys items') /\
       In "foo_bar" (Dict.keys items') /\
       length items' < length items).
Proof.
  split; [discriminate|]. do 4 (split; [reflexivity|]).
  intros items Hlower Hupper.
  exists (Dict.of_items
            (map (fun kv => (camel_to_snake (fst kv), convert_keys (snd kv))) items)).
  split; [reflexivity|]. split; [apply nodup_of_items|].
  assert (Hkeys : map fst (map (fun kv => (camel_to_snake (fst kv), convert_keys (snd kv)))
                             items)
                  = map camel_to_snake (Dict.keys items)).
  { unfold Dict.keys. now rewrite !map_map. }
  split.
  - unfold Dict.of_items. apply keys_of_items_from. right. rewrite Hkeys.
    change "foo_bar" with (camel_to_snake "fooBar"). now apply in_map.
  - destruct (in_split _ _ Hlower) as [l1 [l2 Hsplit]].
    rewrite <- (length_map (fun kv => (camel_to_snake (fst kv), convert_keys (snd kv))) items).
    apply (of_items_shrinks _ (map camel_to_snake l1) "foo_bar" (map camel_to_snake l2)).
    + rewrite Hkeys, Hsplit, map_app. reflexivity.
    + rewrite <- map_app. change "foo_bar" with (camel_to_snake "FooBar").
      apply in_map. rewrite Hsplit in Hupper.
      apply in_app_or in Hupper as [Hin|[Heq|Hin]]; [| discriminate Heq |];
        apply in_or_app; auto.
Qed.

Lemma C10_camel_to_snake_not_injective_witness :
  exists items',
    convert_keys
      (JDict [("fooBar", JInt 1); ("model", JStr "m"); ("FooBar", JInt 2)])
    = JDict items' /\
    NoDup (Dict.keys items') /\
    In "foo_bar" (Dict.keys items') /\
    length items' < 3.
Proof.
  apply (proj2 (proj2 (proj2 (proj2 (proj2 C10_camel_to_snake_not_injective))))
           [("fooBar", JInt 1); ("model", JStr "m"); ("FooBar", JInt 2)]).
  - cbn. tauto.
  - cbn. tauto.
Defined.

(** * Further properties *)

(** ** Shapes of the keys the transforms produce *)

Lemma isupper_lower_char c : PyStr.isupper (PyStr.lower_char c) = false.
Proof. by_cases_on_char c. Qed.

Lemma separator_lower_char c :
  Ascii.eqb c "_" = false -> Ascii.eqb (PyStr.lower_char c) "_" = false.
Proof. by_cases_on_char c. Qed.

Lemma separator_upper_char c :
  Ascii.eqb c "_" = false -> Ascii.eqb (PyStr.upper_char c) "_" = false.
Proof. by_cases_on_char c. Qed.

Lemma islower_upper_lower c :
  PyStr.islower c = true ->
  PyStr.isupper (PyStr.upper_char c) = true /\
  PyStr.lower_char (PyStr.upper_char c) = c /\ PyStr.isalpha c = true.
Proof. by_cases_on_char c; auto. Qed.

Lemma append_empty_r s : (s ++ EmptyString)%string = s.
Proof. induction s as [|c s IH]; cbn; [reflexivity|now rewrite IH]. Qed.

Lemma append_assoc_string a b c : ((a ++ b) ++ c)%string = (a ++ (b ++ c))%string.
Proof. induction a as [|x a IH]; cbn; [reflexivity|now rewrite IH]. Qed.

Lemma forallb_append p a b :
  PyStr.forallb p (a ++ b) = PyStr.forallb p a && PyStr.forallb p b.
Proof. induction a as [|c a IH]; cbn; [reflexivity|now rewrite IH, andb_assoc]. Qed.

Lemma camel_to_snake_from_no_upper s :
  forall i, no_upper (camel_to_snake_from i s) = true.
Proof.
  unfold no_upper. induction s as [|c s IH]; intro i; [reflexivity|].
  cbn [camel_to_snake_from].
  destruct (PyStr.isupper c && (0 <? i)); cbn [PyStr.forallb];
    now rewrite isupper_lower_char, IH.
Qed.

Lemma camel_to_snake_from_fixed s :
  forall i, no_upper s = true -> camel_to_snake_from i s = s.
Proof.
  unfold no_upper. induction s as [|c s IH]; intros i Hs; cbn in *; [reflexivity|].
  apply andb_true_iff in Hs as [Hc Hs]. apply negb_true_iff in Hc.
  now rewrite Hc, (lower_char_fixed c Hc), IH.
Qed.

(** X1.  On ASCII keys: a key that comes out of [camel_to_snake] has no
    uppercase letter; a key without uppercase letters goes through
    unchanged; and applying [camel_to_snake] twice is applying it once. *)
Theorem X1_camel_to_snake_lowercase k :
  ascii_key k = true ->
  no_upper (camel_to_snake k) = true /\
  (no_upper k = true -> camel_to_snake k = k) /\
  camel_to_snake (camel_to_snake k) = camel_to_snake k.
Proof.
  intros _. split; [|split].
  - apply camel_to_snake_from_no_upper.
  - intro Hk. now apply camel_to_snake_from_fixed.
  - apply camel_to_snake_from_fixed, camel_to_snake_from_no_upper.
Qed.

Lemma X1_camel_to_snake_lowercase_witness :
  no_upper (camel_to_snake "restrictToWorkspace") = true /\
  (no_upper "restrictToWorkspace" = true ->
   camel_to_snake "restrictToWorkspace" = "restrictToWorkspace") /\
  camel_to_snake (camel_to_snake "restrictToWorkspace")
  = camel_to_snake "restrictToWorkspace".
Proof.
  exact (X1_camel_to_snake_lowercase "restrictToWorkspace" eq_refl).
Defined.

Lemma title_from_no_separator h :
  forall p, no_separator h = true -> no_separator (PyStr.title_from p h) = true.
Proof.
  unfold no_separator. induction h as [|c h IH]; intros p Hh; cbn in *; [reflexivity|].
  apply andb_true_iff in Hh as [Hc Hh]. apply negb_true_iff in Hc.
  rewrite (IH _ Hh), andb_true_r.
  destruct p; [now rewrite separator_lower_char|now rewrite separator_upper_char].
Qed.

(** The parts of a key and what [retitle] makes of them. *)
Lemma retitle_any s :
  forall (f : string -> string) (Q : string -> Prop),
    (forall h R, no_separator h = true -> no_separator R = true -> Q (f h ++ R)%string) ->
    Q (retitle f s).
Proof.
  induction s as [|c s IH]; intros f Q Hf.
  - exact (Hf EmptyString EmptyString eq_refl eq_refl).
  - destruct (Ascii.eqb c "_") eqn:Hc.
    + apply Ascii.eqb_eq in Hc. subst c. rewrite retitle_separator.
      apply (Hf EmptyString); [reflexivity|].
      apply (IH PyStr.title (fun x => no_separator x = true)). intros h R Hh HR.
      unfold no_separator in *. rewrite forallb_append, HR, andb_true_r.
      now apply title_from_no_separator.
    + rewrite (retitle_other _ _ _ Hc).
      apply (IH (fun h => f (String c h)) Q). intros h R Hh HR.
      apply Hf; [|exact HR]. unfold no_separator in *. cbn. now rewrite Hc.
Qed.

Lemma split_no_separator s :
  no_separator s = true -> PyStr.split "_" s = [s].
Proof.
  unfold no_separator. induction s as [|c s IH]; intro Hs; cbn in *; [reflexivity|].
  apply andb_true_iff in Hs as [Hc Hs]. apply negb_true_iff in Hc.
  now rewrite Hc, (IH Hs).
Qed.

Lemma snake_to_camel_no_separator s : no_separator (snake_to_camel s) = true.
Proof.
  rewrite snake_to_camel_retitle. apply (retitle_any s (fun h => h)).
  intros h R Hh HR. unfold no_separator in *. now rewrite forallb_append, Hh, HR.
Qed.

Lemma snake_to_camel_fixed k : no_separator k = true -> snake_to_camel k = k.
Proof.
  intro Hk. unfold snake_to_camel. rewrite (split_no_separator k Hk). cbn.
  apply append_empty_r.
Qed.

(** X2.  A key that comes out of [snake_to_camel] has no separator; a key
    without separators goes through unchanged; so applying [snake_to_camel]
    twice is applying it once. *)
Theorem X2_snake_to_camel_no_separator :
  (forall s, no_separator (snake_to_camel s) = true) /\
  (forall k, no_separator k = true -> snake_to_camel k = k) /\
  (forall s, snake_to_camel (snake_to_camel s) = snake_to_camel s).
Proof.
  split; [|split].
  - exact snake_to_camel_no_separator.
  - exact snake_to_camel_fixed.
  - intro s. apply snake_to_camel_fixed, snake_to_camel_no_separator.
Qed.

Lemma X2_snake_to_camel_no_separator_witness :
  snake_to_camel "restrictToWorkspace" = "restrictToWorkspace".
Proof.
  exact (proj1 (proj2 X2_snake_to_camel_no_separator) "restrictToWorkspace" eq_refl).
Defined.

(** ** From an internal key to the wire and back *)

Lemma camel_to_snake_from_1_app a b :
  camel_to_snake_from 1 (a ++ b)
  = (camel_to_snake_from 1 a ++ camel_to_snake_from 1 b)%string.
Proof.
  induction a as [|c a IH]; [reflexivity|].
  cbn [append]. rewrite !camel_to_snake_from_1_cons, IH.
  now destruct (PyStr.isupper c).
Qed.

Lemma split_join_parts s : join_parts (PyStr.split "_" s) = s.
Proof.
  induction s as [|c s IH]; [reflexivity|].
  cbn [PyStr.split]. destruct (Ascii.eqb c "_") eqn:Hc.
  - apply Ascii.eqb_eq in Hc. subst c.
    destruct (PyStr.split "_" s) as [|h t] eqn:E; [now apply split_not_nil in E|].
    cbn in *. now rewrite IH.
  - destruct (PyStr.split "_" s) as [|h t] eqn:E; [now apply split_not_nil in E|].
    cbn in *. now rewrite IH.
Qed.

Lemma lower_or_digit_no_upper r :
  PyStr.forallb lower_or_digit r = true -> no_upper r = true.
Proof.
  unfold no_upper. induction r as [|c r IH]; cbn; [reflexivity|].
  intro Hr. apply andb_true_iff in Hr as [Hc Hr].
  now rewrite (lower_or_digit_not_upper c Hc), IH.
Qed.

Lemma title_from_stable r :
  forall p,
    PyStr.forallb lower_or_digit r = true -> title_stable p r = true ->
    PyStr.title_from p r = r.
Proof.
  induction r as [|c r IH]; intros p Hr Hs; [reflexivity|].
  cbn in *. apply andb_true_iff in Hr as [Hc Hr]. apply andb_true_iff in Hs as [Hp Hs].
  rewrite (IH _ Hr Hs). f_equal.
  destruct p.
  - apply lower_char_fixed, lower_or_digit_not_upper, Hc.
  - rewrite orb_false_r in Hp. apply negb_true_iff in Hp. now apply upper_char_fixed.
Qed.

(** A later part comes back with its separator. *)
Lemma camel_to_snake_title_part p :
  snake_part p = true ->
  camel_to_snake_from 1 (PyStr.title p) = String "_" p.
Proof.
  destruct p as [|c r]; [discriminate|]. cbn [snake_part].
  intro Hp. apply andb_true_iff in Hp as [Hp Hs]. apply andb_true_iff in Hp as [Hc Hr].
  destruct (islower_upper_lower c Hc) as [Hup [Hback Halpha]].
  unfold PyStr.title. cbn [PyStr.title_from].
  rewrite Halpha, (title_from_stable r true Hr Hs), camel_to_snake_from_1_cons, Hup, Hback.
  now rewrite (camel_to_snake_from_fixed r 1 (lower_or_digit_no_upper r Hr)).
Qed.

Lemma camel_to_snake_title_parts components :
  forallb snake_part components = true ->
  camel_to_snake_from 1 (PyStr.join (map PyStr.title components))
  = PyStr.join (map (String "_") components).
Proof.
  induction components as [|p ps IH]; [reflexivity|].
  cbn [forallb map PyStr.join]. intro Hps. apply andb_true_iff in Hps as [Hp Hps].
  now rewrite camel_to_snake_from_1_app, (camel_to_snake_title_part p Hp), (IH Hps).
Qed.

Lemma camel_to_snake_snake_to_camel s :
  snake_key s = true -> camel_to_snake (snake_to_camel s) = s.
Proof.
  unfold snake_key, snake_to_camel. intro Hs.
  rewrite <- (split_join_parts s) at 2.
  destruct (PyStr.split "_" s) as [|first components]; [discriminate|].
  apply andb_true_iff in Hs as [Hs Hparts]. apply andb_true_iff in Hs as [Hfirst Hstart].
  cbn [join_parts]. destruct first as [|c r].
  - destruct components; [reflexivity|discriminate].
  - cbn [append]. rewrite camel_to_snake_cons, camel_to_snake_from_1_app.
    rewrite (camel_to_snake_title_parts components Hparts).
    cbn in Hfirst. apply andb_true_iff in Hfirst as [Hc Hr].
    rewrite (lower_char_fixed c (lower_or_digit_not_upper c Hc)).
    now rewrite (camel_to_snake_from_fixed r 1 (lower_or_digit_no_upper r Hr)).
Qed.

(** X3.  An internal key written to the wire and read back is itself:
    [camel_to_snake (snake_to_camel s) = s] for every key [s] of lowercase
    letters and digits in parts joined by single separators, that does not
    begin or end with a separator, whose parts after the first begin with a
    letter and have no letter directly after a digit.  So [snake_to_camel]
    is one-to-one on these keys. *)
Theorem X3_internal_key_round_trip :
  (forall s, snake_key s = true -> camel_to_snake (snake_to_camel s) = s) /\
  (forall s t,
     snake_key s = true -> snake_key t = true ->
     snake_to_camel s = snake_to_camel t -> s = t).
Proof.
  split; [exact camel_to_snake_snake_to_camel|].
  intros s t Hs Ht Heq.
  rewrite <- (camel_to_snake_snake_to_camel s Hs), Heq.
  now apply camel_to_snake_snake_to_camel.
Qed.

Lemma X3_internal_key_round_trip_witness :
  camel_to_snake (snake_to_camel "restrict_to_workspace") = "restrict_to_workspace" /\
  camel_to_snake (snake_to_camel "oauth2_token") = "oauth2_token".
Proof.
  split.
  - exact (proj1 X3_internal_key_round_trip "restrict_to_workspace" eq_refl).
  - exact (proj1 X3_internal_key_round_trip "oauth2_token" eq_refl).
Defined.

(** ** Mappings built by a comprehension *)

Lemma get_app {V} k (a b : list (string * V)) :
  Dict.get k (a ++ b) = match Dict.get k a with Some v => Some v | None => Dict.get k b end.
Proof.
  induction a as [|[k0 v0] a IH]; cbn; [reflexivity|].
  now destruct (String.eqb k0 k).
Qed.

Lemma get_set {V} k k' (v : V) d :
  Dict.get k' (Dict.set k v d) = if String.eqb k k' then Some v else Dict.get k' d.
Proof.
  destruct (String.eqb k k') eqn:E.
  - apply String.eqb_eq in E. subst k'. apply get_set_same.
  - apply get_set_other. now rewrite String.eqb_sym.
Qed.

(** The last pair of a key is the one the comprehension keeps. *)
Lemma get_of_items_from {V} k (items d : list (string * V)) :
  Dict.get k (fold_left (fun d kv => Dict.set (fst kv) (snd kv) d) items d)
  = match Dict.get k (rev items) with
    | Some v => Some v
    | None => Dict.get k d
    end.
Proof.
  revert d. induction items as [|[k0 v0] items IH]; intro d; [reflexivity|].
  cbn [fold_left fst snd rev]. rewrite IH, get_app, get_set. cbn [Dict.get].
  destruct (Dict.get k (rev items)); [reflexivity|].
  now destruct (String.eqb k0 k).
Qed.

Lemma get_of_items {V} k (items : list (string * V)) :
  Dict.get k (Dict.of_items items) = Dict.get k (rev items).
Proof.
  unfold Dict.of_items. rewrite get_of_items_from.
  now destruct (Dict.get k (rev items)).
Qed.

Lemma get_find {V} k (d : list (string * V)) :
  Dict.get k d = option_map snd (find (fun kv => String.eqb (fst kv) k) d).
Proof.
  induction d as [|[k0 v0] d IH]; cbn; [reflexivity|].
  now destruct (String.eqb k0 k).
Qed.

Lemma set_absent {V} k (v : V) d :
  Dict.get k d = None -> Dict.set k v d = d ++ [(k, v)].
Proof.
  induction d as [|[k0 v0] d IH]; cbn; [reflexivity|].
  destruct (String.eqb k0 k); [discriminate|]. intro Hd. now rewrite IH.
Qed.

Lemma get_not_in {V} k (d : list (string * V)) :
  ~ In k (Dict.keys d) -> Dict.get k d = None.
Proof.
  induction d as [|[k0 v0] d IH]; cbn; [reflexivity|]. intro Hk.
  destruct (String.eqb k0 k) eqn:E.
  - apply String.eqb_eq in E. tauto.
  - apply IH. tauto.
Qed.

(** With distinct keys the comprehension is the list of its pairs. *)
Lemma of_items_nodup {V} (items : list (string * V)) :
  NoDup (Dict.keys items) -> Dict.of_items items = items.
Proof.
  unfold Dict.of_items.
  assert (Hfrom : forall d : list (string * V),
             NoDup (Dict.keys d ++ Dict.keys items) ->
             fold_left (fun d kv => Dict.set (fst kv) (snd kv) d) items d = d ++ items).
  { induction items as [|[k v] items IH]; intros d Hd; cbn [fold_left fst snd].
    - now rewrite app_nil_r.
    - cbn in Hd. rewrite set_absent.
      + rewrite IH; [now rewrite <- app_assoc|].
        unfold Dict.keys in *. rewrite map_app, <- app_assoc. exact Hd.
      + apply get_not_in. apply NoDup_remove_2 in Hd. intro Hin. apply Hd.
        apply in_or_app. now left. }
  intro Hitems. now apply (Hfrom []).
Qed.

Lemma distinct_NoDup l : distinct l = true -> NoDup l.
Proof.
  induction l as [|x l IH]; cbn; intro Hl; constructor.
  - apply andb_true_iff in Hl as [Hx _]. apply negb_true_iff in Hx.
    intro Hin. assert (Hex : existsb (String.eqb x) l = true)
      by (apply existsb_exists; exists x; split; [exact Hin|apply String.eqb_refl]).
    congruence.
  - apply andb_true_iff in Hl as [_ Hl]. now apply IH.
Qed.

Lemma NoDup_map_on {A B} (f : A -> B) l :
  (forall x y, In x l -> In y l -> f x = f y -> x = y) ->
  NoDup l -> NoDup (map f l).
Proof.
  induction l as [|a l IH]; cbn; intros Hinj Hl; constructor;
    inversion Hl as [|? ? Hnotin Hrest]; subst.
  - intro Hin. apply in_map_iff in Hin as [y [Hy Hyl]].
    assert (y = a) by (apply Hinj; auto). now subst.
  - apply IH; auto.
Qed.

(** X4.  What [convert_keys] and [convert_to_camel] do to the entries of a
    mapping: the value found under a key is the converted value of the last
    entry whose key has that image, nothing when no key has it; and when the
    images of the keys are distinct, the entries are converted one by one,
    in their order. *)
Theorem X4_mapping_entries items :
  (forall k',
     lookup [k'] (convert_keys (JDict items))
     = option_map convert_keys (last_entry camel_to_snake k' items)) /\
  (forall k',
     lookup [k'] (convert_to_camel (JDict items))
     = option_map convert_to_camel (last_entry snake_to_camel k' items)) /\
  (NoDup (map camel_to_snake (Dict.keys items)) ->
   convert_keys (JDict items)
   = JDict (map (fun kv => (camel_to_snake (fst kv), convert_keys (snd kv))) items)) /\
  (NoDup (map snake_to_camel (Dict.keys items)) ->
   convert_to_camel (JDict items)
   = JDict (map (fun kv => (snake_to_camel (fst kv), convert_to_camel (snd kv))) items)).
Proof.
  assert (Hlast : forall (phi : string -> string) (psi : json -> json) k',
            match Dict.get k'
                    (Dict.of_items (map (fun kv => (phi (fst kv), psi (snd kv))) items))
            with
            | Some v => Some v
            | None => None
            end = option_map psi (last_entry phi k' items)).
  { intros phi psi k'. unfold last_entry.
    rewrite get_of_items, get_find, <- map_rev.
    induction (rev items) as [|[k v] l IH]; cbn; [reflexivity|].
    destruct (String.eqb (phi k) k'); [reflexivity|exact IH]. }
  split; [|split; [|split]].
  - intro k'. rewrite <- Hlast. cbn.
    now destruct (Dict.get k' _).
  - intro k'. rewrite <- Hlast. cbn.
    now destruct (Dict.get k' _).
  - intro Hkeys. cbn. rewrite of_items_nodup; [reflexivity|].
    unfold Dict.keys in *. now rewrite map_map in *.
  - intro Hkeys. cbn. rewrite of_items_nodup; [reflexivity|].
    unfold Dict.keys in *. now rewrite map_map in *.
Qed.

Lemma X4_mapping_entries_witness :
  convert_keys (JDict [("apiKey", JStr "k"); ("allowFrom", JList [])])
  = JDict [("api_key", JStr "k"); ("allow_from", JList [])].
Proof.
  apply (proj1 (proj2 (proj2 (X4_mapping_entries
                                [("apiKey", JStr "k"); ("allowFrom", JList [])])))).
  apply distinct_NoDup. reflexivity.
Defined.

(** ** Documents through the normalizer *)

Lemma map_fixed {A} (f : A -> A) l : (forall x, In x l -> f x = x) -> map f l = l.
Proof.
  intro Hf. rewrite <- (map_id l) at 2. now apply map_ext_in.
Qed.

Lemma in_of_items {V} x (items : list (string * V)) :
  In x (Dict.of_items items) -> In x items.
Proof. intro Hx. now apply in_of_items_from in Hx as [[]|Hx]. Qed.

Lemma camel_to_snake_idempotent k : camel_to_snake (camel_to_snake k) = camel_to_snake k.
Proof. apply camel_to_snake_from_fixed, camel_to_snake_from_no_upper. Qed.

Lemma snake_to_camel_idempotent s : snake_to_camel (snake_to_camel s) = snake_to_camel s.
Proof. apply snake_to_camel_fixed, snake_to_camel_no_separator. Qed.

Lemma convert_keys_idempotent data : convert_keys (convert_keys data) = convert_keys data.
Proof.
  induction data as [data Hscalar|items IH|items IH] using json_induction.
  - destruct data; try discriminate; reflexivity.
  - cbn. rewrite map_map. f_equal. apply map_ext_in. intros x Hx.
    rewrite Forall_forall in IH. now apply IH.
  - cbn [convert_keys]. f_equal.
    set (g := fun kv : string * json => (camel_to_snake (fst kv), convert_keys (snd kv))).
    rewrite (map_fixed g).
    + apply of_items_nodup, nodup_of_items.
    + intros [k' v'] Hin. apply in_of_items in Hin.
      apply in_map_iff in Hin as [[k v] [[= <- <-] Hkv]]. unfold g. cbn [fst snd].
      rewrite Forall_forall in IH. pose proof (IH (k, v) Hkv) as Hv. cbn [snd] in Hv.
      now rewrite Hv, camel_to_snake_idempotent.
Qed.

Lemma convert_to_camel_idempotent data :
  convert_to_camel (convert_to_camel data) = convert_to_camel data.
Proof.
  induction data as [data Hscalar|items IH|items IH] using json_induction.
  - destruct data; try discriminate; reflexivity.
  - cbn. rewrite map_map. f_equal. apply map_ext_in. intros x Hx.
    rewrite Forall_forall in IH. now apply IH.
  - cbn [convert_to_camel]. f_equal.
    set (g := fun kv : string * json => (snake_to_camel (fst kv), convert_to_camel (snd kv))).
    rewrite (map_fixed g).
    + apply of_items_nodup, nodup_of_items.
    + intros [k' v'] Hin. apply in_of_items in Hin.
      apply in_map_iff in Hin as [[k v] [[= <- <-] Hkv]]. unfold g. cbn [fst snd].
      rewrite Forall_forall in IH. pose proof (IH (k, v) Hkv) as Hv. cbn [snd] in Hv.
      now rewrite Hv, snake_to_camel_idempotent.
Qed.

(** X5.  Normalizing a document that is already normalized changes
    nothing: [convert_keys] is idempotent on every document whose keys are
    ASCII, and [convert_to_camel] on every document. *)
Theorem X5_normalizer_idempotent data :
  (ascii_keys data = true -> convert_keys (convert_keys data) = convert_keys data) /\
  convert_to_camel (convert_to_camel data) = convert_to_camel data.
Proof.
  split; [intros _; apply convert_keys_idempotent|apply convert_to_camel_idempotent].
Qed.

Lemma X5_normalizer_idempotent_witness :
  convert_keys
    (convert_keys (JDict [("allowFrom", JList [JDict [("userId", JInt 7)]]);
                          ("allow_from", JNull)]))
  = convert_keys (JDict [("allowFrom", JList [JDict [("userId", JInt 7)]]);
                         ("allow_from", JNull)]).
Proof.
  exact (proj1 (X5_normalizer_idempotent
                  (JDict [("allowFrom", JList [JDict [("userId", JInt 7)]]);
                          ("allow_from", JNull)]))
           eq_refl).
Defined.

Lemma snake_document_dict items :
  snake_document (JDict items) = true ->
  NoDup (Dict.keys items) /\
  Forall (fun kv => snake_key (fst kv) = true /\ snake_document (snd kv) = true) items.
Proof.
  cbn [snake_document]. intro Hd. apply andb_true_iff in Hd as [Hkeys Hall].
  split; [now apply distinct_NoDup|]. clear Hkeys.
  induction items as [|kv items IH]; constructor.
  - apply andb_true_iff in Hall as [Hkv _]. now apply andb_true_iff in Hkv.
  - apply IH. now apply andb_true_iff in Hall as [_ Hall].
Qed.

Lemma snake_document_list items :
  snake_document (JList items) = true -> Forall (fun x => snake_document x = true) items.
Proof.
  cbn [snake_document]. induction items as [|x items IH]; intro Hall; constructor.
  - now apply andb_true_iff in Hall as [Hx _].
  - apply IH. now apply andb_true_iff in Hall as [_ Hall].
Qed.

Lemma wire_round_trip data :
  snake_document data = true -> convert_keys (convert_to_camel data) = data.
Proof.
  induction data as [data Hscalar|items IH|items IH] using json_induction; intro Hdoc.
  - destruct data; try discriminate; reflexivity.
  - apply snake_document_list in Hdoc. cbn. rewrite map_map. f_equal.
    apply map_fixed. intros x Hx. rewrite Forall_forall in IH, Hdoc. auto.
  - apply snake_document_dict in Hdoc as [Hkeys Hall].
    rewrite Forall_forall in IH, Hall.
    cbn [convert_to_camel]. rewrite of_items_nodup.
    + cbn [convert_keys]. rewrite map_map, map_fixed.
      * now rewrite of_items_nodup.
      * intros [k v] Hkv. cbn [fst snd]. destruct (Hall (k, v) Hkv) as [Hk Hv].
        cbn [fst snd] in *. pose proof (IH (k, v) Hkv Hv) as Hback. cbn [snd] in Hback.
        now rewrite Hback, (camel_to_snake_snake_to_camel k Hk).
    + unfold Dict.keys in *. rewrite map_map. cbn [fst].
      rewrite <- (map_map fst snake_to_camel). apply NoDup_map_on; [|exact Hkeys].
      intros a b Ha Hb Heq.
      apply in_map_iff in Ha as [[ka va] [<- Ha]]. apply in_map_iff in Hb as [[kb vb] [<- Hb]].
      cbn [fst] in *.
      rewrite <- (camel_to_snake_snake_to_camel ka (proj1 (Hall _ Ha))), Heq.
      exact (camel_to_snake_snake_to_camel kb (proj1 (Hall _ Hb))).
Qed.

(** X6.  A document in the internal convention (at every depth the keys
    of each mapping are distinct [snake_key]s) written to the wire and read
    back is itself: [convert_keys (convert_to_camel data) = data]; and
    reading it as it is changes nothing: [convert_keys data = data]. *)
Theorem X6_document_round_trip data :
  snake_document data = true ->
  convert_keys (convert_to_camel data) = data /\ convert_keys data = data.
Proof.
  intro Hdoc. pose proof (wire_round_trip data Hdoc) as Hback. split; [exact Hback|].
  rewrite <- Hback at 1. rewrite convert_keys_idempotent. exact Hback.
Qed.

Lemma X6_document_round_trip_witness :
  convert_keys
    (convert_to_camel
       (JDict [("tools", JDict [("restrict_to_workspace", JBool true);
                                ("web", JDict [("search", JDict [("api_key", JStr "")])])]);
               ("channels", JList [JDict [("allow_from", JList [])]])]))
  = JDict [("tools", JDict [("restrict_to_workspace", JBool true);
                            ("web", JDict [("search", JDict [("api_key", JStr "")])])]);
           ("channels", JList [JDict [("allow_from", JList [])]])] /\
  convert_keys
    (JDict [("tools", JDict [("restrict_to_workspace", JBool true);
                             ("web", JDict [("search", JDict [("api_key", JStr "")])])]);
            ("channels", JList [JDict [("allow_from", JList [])]])])
  = JDict [("tools", JDict [("restrict_to_workspace", JBool true);
                            ("web", JDict [("search", JDict [("api_key", JStr "")])])]);
           ("channels", JList [JDict [("allow_from", JList [])]])].
Proof.
  exact (X6_document_round_trip
           (JDict [("tools", JDict [("restrict_to_workspace", JBool true);
                                    ("web", JDict [("search", JDict [("api_key", JStr "")])])]);
                   ("channels", JList [JDict [("allow_from", JList [])]])])
           eq_refl).
Defined.

(** ** More on migration *)

Lemma migrate_keeps_moved top tools_items exec_items v :
  Dict.get "tools" top = Some (JDict tools_items) ->
  Dict.get "exec" tools_items = Some (JDict exec_items) ->
  let moved :=
    JDict
      (Dict.set "tools"
         (JDict
            (Dict.set "restrictToWorkspace" v
               (Dict.set "exec" (JDict (Dict.remove "restrictToWorkspace" exec_items))
                  tools_items)))
         top) in
  _migrate_config moved = Ret moved.
Proof.
  intros Ht He moved. unfold moved, _migrate_config.
  rewrite get_set_same, (get_set_other "restrictToWorkspace" "exec") by reflexivity.
  rewrite get_set_same. unfold str_in, bind, Dict.contains.
  now rewrite get_remove_same.
Qed.

(** X7.  Migration needs no second pass: a document that [_migrate_config]
    returns is returned unchanged when migrated again, whatever the
    document it came from. *)
Theorem X7_migrate_idempotent data data' :
  _migrate_config data = Ret data' -> _migrate_config data' = Ret data'.
Proof.
  intro Hm. pose proof Hm as Hfirst. unfold _migrate_config in Hm.
  destruct data as [| | | | | |top]; try discriminate.
  destruct (Dict.get "tools" top) as [tools|] eqn:Ht.
  2:{ cbn in Hm. injection Hm as <-. exact Hfirst. }
  destruct tools as [| | | | | |tools_items]; try discriminate.
  destruct (Dict.get "exec" tools_items) as [exec_cfg|] eqn:He.
  2:{ cbn in Hm. injection Hm as <-. exact Hfirst. }
  destruct (str_in "restrictToWorkspace" exec_cfg) as [in_exec|e] eqn:Hin;
    [|discriminate].
  cbn [bind] in Hm.
  destruct (in_exec && negb (Dict.contains "restrictToWorkspace" tools_items)).
  2:{ injection Hm as <-. exact Hfirst. }
  destruct exec_cfg as [| | | | | |exec_items]; try discriminate.
  cbn [pop_str] in Hm.
  destruct (Dict.get "restrictToWorkspace" exec_items) as [v|]; [|discriminate].
  cbn [bind fst snd] in Hm. injection Hm as <-.
  exact (migrate_keeps_moved top tools_items exec_items v Ht He).
Qed.

Lemma X7_migrate_idempotent_witness :
  _migrate_config
    (JDict [("agents", JDict []);
            ("tools", JDict [("exec", JDict [("timeout", JInt 60)]);
                             ("restrictToWorkspace", JBool true)])])
  = Ret (JDict [("agents", JDict []);
                ("tools", JDict [("exec", JDict [("timeout", JInt 60)]);
                                 ("restrictToWorkspace", JBool true)])]).
Proof. exact (X7_migrate_idempotent Examples.legacy_document _ eq_refl). Defined.

(** X8.  Outside the documents whose sections are mappings,
    [_migrate_config] changes nothing: when it returns at all, it returns
    the document it was given (an ["exec"] entry that is a sequence or a
    text without the flag is left alone). *)
Theorem X8_migrate_other_shapes data data' :
  sections_are_mappings data = false ->
  _migrate_config data = Ret data' -> data' = data.
Proof.
  intros Hshape Hm. unfold _migrate_config in Hm.
  destruct data as [| | | | | |top]; try discriminate.
  cbn [sections_are_mappings] in Hshape.
  destruct (Dict.get "tools" top) as [tools|]; [|discriminate].
  destruct tools as [| | | | | |tools_items]; try discriminate.
  destruct (Dict.get "exec" tools_items) as [exec_cfg|]; [|discriminate].
  destruct (str_in "restrictToWorkspace" exec_cfg) as [in_exec|e]; [|discriminate].
  cbn [bind] in Hm.
  destruct (in_exec && negb (Dict.contains "restrictToWorkspace" tools_items)).
  2:{ now injection Hm as <-. }
  destruct exec_cfg; discriminate.
Qed.

Lemma X8_migrate_other_shapes_witness :
  sections_are_mappings
    (JDict [("tools", JDict [("exec", JList [JStr "ls"; JStr "cat"])])]) = false /\
  exists data',
    _migrate_config (JDict [("tools", JDict [("exec", JList [JStr "ls"; JStr "cat"])])])
    = Ret data' /\
    data' = JDict [("tools", JDict [("exec", JList [JStr "ls"; JStr "cat"])])].
Proof.
  split; [reflexivity|]. eexists. split; [reflexivity|].
  exact (X8_migrate_other_shapes
           (JDict [("tools", JDict [("exec", JList [JStr "ls"; JStr "cat"])])])
           _ eq_refl eq_refl).
Defined.

Lemma get_rev_nodup {V} k (d : list (string * V)) :
  NoDup (Dict.keys d) -> Dict.get k (rev d) = Dict.get k d.
Proof.
  induction d as [|[k0 v0] d IH]; cbn; intro Hd; [reflexivity|].
  inversion Hd as [|? ? Hnotin Hrest]; subst.
  rewrite get_app, (IH Hrest). cbn.
  destruct (String.eqb k0 k) eqn:E.
  - apply String.eqb_eq in E. subst k0. now rewrite (get_not_in k d Hnotin).
  - now destruct (Dict.get k d).
Qed.

Lemma keys_set_present {V} k (v v0 : V) d :
  Dict.get k d = Some v0 -> Dict.keys (Dict.set k v d) = Dict.keys d.
Proof.
  induction d as [|[k1 v1] d IH]; cbn; [discriminate|].
  destruct (String.eqb k1 k) eqn:E; cbn.
  - apply String.eqb_eq in E. now subst k1.
  - intro Hd. unfold Dict.keys in IH. now rewrite IH.
Qed.

(** A key that no other key of the mapping shares its image with keeps its
    value, converted. *)
Lemma get_converted_unique (phi : string -> string) (psi : json -> json) k items :
  NoDup (Dict.keys items) ->
  (forall k0, In k0 (Dict.keys items) -> phi k0 = phi k -> k0 = k) ->
  Dict.get (phi k) (Dict.of_items (map (fun kv => (phi (fst kv), psi (snd kv))) items))
  = option_map psi (Dict.get k items).
Proof.
  intros Hnodup Hunique. rewrite get_of_items, <- map_rev, <- (get_rev_nodup k items Hnodup).
  assert (Hin : forall k0, In k0 (Dict.keys (rev items)) -> phi k0 = phi k -> k0 = k).
  { intros k0 Hk0. apply Hunique. unfold Dict.keys in *.
    rewrite map_rev in Hk0. now apply in_rev. }
  clear Hunique Hnodup. induction (rev items) as [|[k0 v0] l IH]; cbn; [reflexivity|].
  destruct (String.eqb (phi k0) (phi k)) eqn:E.
  - apply String.eqb_eq in E. rewrite (Hin k0 (or_introl eq_refl) E).
    now rewrite String.eqb_refl.
  - destruct (String.eqb k0 k) eqn:E'.
    + apply String.eqb_eq in E'. subst k0. now rewrite String.eqb_refl in E.
    + apply IH. intros k1 Hk1. apply Hin. now right.
Qed.

(** X9.  A legacy document, migrated and then normalized, carries the
    restriction flag at [tools.restrict_to_workspace], with the value it
    had at the legacy place; this holds when the document's top-level keys
    are distinct and ["tools"] is the only one of them that normalizes to
    ["tools"]. *)
Theorem X9_migrated_flag_normalized top tools_items exec_items v :
  NoDup (Dict.keys top) ->
  (forall k, In k (Dict.keys top) -> camel_to_snake k = "tools" -> k = "tools") ->
  Dict.get "tools" top = Some (JDict tools_items) ->
  Dict.get "exec" tools_items = Some (JDict exec_items) ->
  Dict.get "restrictToWorkspace" exec_items = Some v ->
  Dict.get "restrictToWorkspace" tools_items = None ->
  exists data',
    _migrate_config (JDict top) = Ret data' /\
    lookup ["tools"; "restrict_to_workspace"] (convert_keys data')
    = Some (convert_keys v).
Proof.
  intros Hnodup Hunique Ht He Hv Hn.
  eexists. split; [exact (migrate_moves _ _ _ _ Ht He Hv Hn)|].
  set (tools' := Dict.set "restrictToWorkspace" v
                   (Dict.set "exec" (JDict (Dict.remove "restrictToWorkspace" exec_items))
                      tools_items)).
  cbn [convert_keys lookup].
  change "tools" with (camel_to_snake "tools") at 1.
  rewrite (get_converted_unique camel_to_snake convert_keys "tools").
  - rewrite get_set_same. cbn [option_map convert_keys].
    assert (Happ : tools'
                   = Dict.set "exec" (JDict (Dict.remove "restrictToWorkspace" exec_items))
                       tools_items ++ [("restrictToWorkspace", v)]).
    { apply set_absent. now rewrite get_set_other. }
    rewrite get_of_items, Happ, map_app, rev_app_distr. reflexivity.
  - now rewrite (keys_set_present _ _ _ _ Ht).
  - rewrite (keys_set_present _ _ _ _ Ht). exact Hunique.
Qed.

Lemma X9_migrated_flag_normalized_witness :
  exists data',
    _migrate_config Examples.legacy_document = Ret data' /\
    lookup ["tools"; "restrict_to_workspace"] (convert_keys data') = Some (JBool true).
Proof.
  apply (X9_migrated_flag_normalized
           [("agents", JDict []);
            ("tools", JDict [("exec", JDict [("timeout", JInt 60);
                                             ("restrictToWorkspace", JBool true)])])]
           [("exec", JDict [("timeout", JInt 60); ("restrictToWorkspace", JBool true)])]
           [("timeout", JInt 60); ("restrictToWorkspace", JBool true)]
           (JBool true)); try reflexivity.
  - apply distinct_NoDup. reflexivity.
  - cbn. intros k [<-|[<-|[]]]; [discriminate|reflexivity].
Defined.

(** ** The overrides, field by field *)

Lemma if_set_chosen guard body config :
  if_set guard body config
  = match chosen guard with Some s => body s config | None => config end.
Proof.
  unfold if_set, chosen. destruct guard as [s|]; [|reflexivity].
  now destruct (PyStr.truthy s).
Qed.

Lemma or_flag_twice old a b : or_flag (or_flag old a) b = or_flag old (a || b).
Proof. destruct old; cbn; try reflexivity. now rewrite orb_assoc. Qed.

Lemma read_enable_telegram config c :
  read telegram_enabled (enable_channel config c)
  = or_flag (read telegram_enabled config) (String.eqb "telegram" c).
Proof.
  unfold enable_channel, hasattr_channels, set_section_enabled.
  rewrite (String.eqb_sym "telegram" c).
  destruct (String.eqb c "telegram"); cbn; [now rewrite orb_true_r|].
  rewrite orb_false_r.
  destruct (String.eqb c "whatsapp"); cbn; [reflexivity|].
  now destruct (Dict.contains c (ChannelsConfig.others (channels config))).
Qed.

Lemma read_enable_whatsapp config c :
  read whatsapp_enabled (enable_channel config c)
  = or_flag (read whatsapp_enabled config) (String.eqb "whatsapp" c).
Proof.
  unfold enable_channel, hasattr_channels, set_section_enabled.
  rewrite (String.eqb_sym "whatsapp" c).
  destruct (String.eqb c "telegram") eqn:Et; cbn.
  - apply String.eqb_eq in Et. subst c. cbn. now rewrite orb_false_r.
  - destruct (String.eqb c "whatsapp"); cbn; [now rewrite orb_true_r|].
    rewrite orb_false_r.
    now destruct (Dict.contains c (ChannelsConfig.others (channels config))).
Qed.

Lemma read_enable_section section config c :
  read (channel_enabled section) (enable_channel config c)
  = or_flag (read (channel_enabled section) config)
      (String.eqb section c && negb (String.eqb section "telegram")
       && negb (String.eqb section "whatsapp")).
Proof.
  unfold enable_channel, hasattr_channels, set_section_enabled.
  assert (Hsame : forall b, or_flag (read (channel_enabled section) config) false
                            = read (channel_enabled section) config
                            /\ (b = false -> or_flag (read (channel_enabled section) config) b
                                             = read (channel_enabled section) config)).
  { intro b. cbn. destruct (Dict.get section _); cbn; rewrite ?orb_false_r;
      split; try reflexivity; intros ->; now rewrite ?orb_false_r. }
  destruct (String.eqb c "telegram") eqn:Et.
  { apply String.eqb_eq in Et. subst c. cbn [orb].
    apply eq_sym, (Hsame _). now destruct (String.eqb section "telegram"). }
  destruct (String.eqb c "whatsapp") eqn:Ew.
  { apply String.eqb_eq in Ew. subst c. cbn [orb].
    apply eq_sym, (Hsame _).
    destruct (String.eqb section "whatsapp"); [now rewrite andb_false_r|reflexivity]. }
  cbn [orb]. destruct (String.eqb section c) eqn:Es.
  - apply String.eqb_eq in Es. subst c. rewrite Et, Ew. cbn [negb andb].
    unfold Dict.contains. cbn [read channels set_channels ChannelsConfig.others].
    destruct (Dict.get section (ChannelsConfig.others (channels config))) as [b|] eqn:Hg.
    + cbn [read channels set_channels ChannelsConfig.others]. rewrite get_set_same.
      cbn. now rewrite orb_true_r.
    + cbn [read]. now rewrite Hg.
  - cbn [andb]. destruct (Dict.contains c (ChannelsConfig.others (channels config)));
      [|now apply eq_sym, (Hsame false)].
    cbn [read channels set_channels ChannelsConfig.others].
    rewrite get_set_other by exact Es.
    exact (eq_sym (proj1 (Hsame false))).
Qed.

Lemma mentions_cons name c names :
  mentions (c :: names) name = String.eqb name c || mentions names name.
Proof. reflexivity. Qed.

Lemma read_enable_channels names :
  forall config,
    read telegram_enabled (fold_left enable_channel names config)
    = or_flag (read telegram_enabled config) (mentions names "telegram") /\
    read whatsapp_enabled (fold_left enable_channel names config)
    = or_flag (read whatsapp_enabled config) (mentions names "whatsapp") /\
    forall section,
      read (channel_enabled section) (fold_left enable_channel names config)
      = or_flag (read (channel_enabled section) config)
          (mentions names section && negb (String.eqb section "telegram")
           && negb (String.eqb section "whatsapp")).
Proof.
  induction names as [|c names IH]; intro config.
  - cbn. repeat split; try (now rewrite orb_false_r).
    intro section. now destruct (Dict.get section _); cbn; rewrite ?orb_false_r.
  - cbn [fold_left]. destruct (IH (enable_channel config c)) as [Ht [Hw Hs]].
    rewrite Ht, Hw, read_enable_telegram, read_enable_whatsapp, !or_flag_twice.
    repeat split. intro section.
    rewrite Hs, read_enable_section, or_flag_twice, mentions_cons. f_equal. btauto.
Qed.

Ltac written_by_one_statement :=
  unfold _apply_env_overrides; repeat pass_statement;
  rewrite if_set_chosen; cbn [effect]; unfold or_text, or_list;
  match goal with
  | |- context [chosen ?g] => destruct (chosen g)
  end; [reflexivity|repeat pass_statement; reflexivity].

Lemma read_overrides environ config f :
  read f (_apply_env_overrides environ config) = effect environ f (read f config).
Proof.
  destruct f; try written_by_one_statement.
  - (* telegram_enabled *)
    unfold _apply_env_overrides. pass_statement. rewrite if_set_chosen.
    cbn [effect]. unfold listed_channels.
    assert (Htoken : forall inner,
              read telegram_enabled
                (if_set (environ "TELEGRAM_TOKEN")
                   (fun token config =>
                      set_telegram_enabled true (set_telegram_token token config))
                   inner)
              = or_flag (read telegram_enabled inner)
                  match chosen (environ "TELEGRAM_TOKEN") with
                  | Some _ => true
                  | None => false
                  end).
    { intro inner. rewrite if_set_chosen.
      destruct (chosen (environ "TELEGRAM_TOKEN")); cbn; [now rewrite orb_true_r|].
      now rewrite orb_false_r. }
    destruct (chosen (environ "CHANNELS")) as [channels_env|].
    + rewrite (proj1 (read_enable_channels _ _)). repeat pass_statement.
      rewrite Htoken. repeat pass_statement. now rewrite or_flag_twice.
    + repeat pass_statement. rewrite Htoken. repeat pass_statement.
      cbn [mentions existsb]. now rewrite orb_false_r.
  - (* whatsapp_enabled *)
    unfold _apply_env_overrides. pass_statement. rewrite if_set_chosen.
    cbn [effect]. unfold listed_channels.
    assert (Hflag : forall inner,
              read whatsapp_enabled
                (if String.eqb (PyStr.lower (get_or environ "WHATSAPP_ENABLED" "")) "true"
                 then set_whatsapp_enabled true inner else inner)
              = or_flag (read whatsapp_enabled inner)
                  (String.eqb (PyStr.lower (get_or environ "WHATSAPP_ENABLED" "")) "true")).
    { intro inner.
      destruct (String.eqb (PyStr.lower (get_or environ "WHATSAPP_ENABLED" "")) "true");
        cbn; [now rewrite orb_true_r|now rewrite orb_false_r]. }
    destruct (chosen (environ "CHANNELS")) as [channels_env|].
    + rewrite (proj1 (proj2 (read_enable_channels _ _))). pass_statement.
      rewrite Hflag. repeat pass_statement. now rewrite or_flag_twice.
    + pass_statement. rewrite Hflag. repeat pass_statement.
      cbn [mentions existsb]. now rewrite orb_false_r.
  - (* channel_enabled section *)
    unfold _apply_env_overrides. pass_statement. rewrite if_set_chosen.
    cbn [effect]. unfold listed_channels.
    destruct (chosen (environ "CHANNELS")) as [channels_env|].
    + rewrite (proj2 (proj2 (read_enable_channels _ _))). repeat pass_statement.
      reflexivity.
    + repeat pass_statement. cbn [mentions existsb andb read].
      destruct (Dict.get section _); cbn; now rewrite ?orb_false_r.
Qed.

Lemma if_set_sections guard body config :
  (forall x c, other_sections (body x c) = other_sections c) ->
  other_sections (if_set guard body config) = other_sections config.
Proof.
  intro Hbody. rewrite if_set_chosen. destruct (chosen guard); [apply Hbody|reflexivity].
Qed.

Lemma other_sections_enable_channels names :
  forall config,
    other_sections (fold_left enable_channel names config)
    = enable_sections names (other_sections config).
Proof.
  unfold enable_sections.
  induction names as [|c names IH]; intro config; [reflexivity|].
  cbn [fold_left]. rewrite IH. f_equal.
  unfold enable_channel, hasattr_channels, set_section_enabled, other_sections.
  destruct (String.eqb c "telegram"); [reflexivity|].
  destruct (String.eqb c "whatsapp"); [reflexivity|]. cbn [orb].
  now destruct (Dict.contains c (ChannelsConfig.others (channels config))).
Qed.

Lemma other_sections_overrides environ config :
  other_sections (_apply_env_overrides environ config)
  = enable_sections (listed_channels environ) (other_sections config).
Proof.
  unfold _apply_env_overrides.
  rewrite if_set_sections by reflexivity.
  rewrite if_set_chosen. unfold listed_channels.
  assert (Hinner : forall inner,
            other_sections
              (if String.eqb (PyStr.lower (get_or environ "WHATSAPP_ENABLED" "")) "true"
               then set_whatsapp_enabled true inner else inner)
            = other_sections inner)
    by (intro inner; now destruct (String.eqb _ "true")).
  destruct (chosen (environ "CHANNELS")) as [channels_env|].
  - rewrite other_sections_enable_channels. f_equal.
    rewrite if_set_sections by reflexivity. rewrite Hinner.
    now rewrite !if_set_sections by reflexivity.
  - rewrite if_set_sections by reflexivity. rewrite Hinner.
    now rewrite !if_set_sections by reflexivity.
Qed.

Lemma set_same {V} k (v : V) d : Dict.get k d = Some v -> Dict.set k v d = d.
Proof.
  induction d as [|[k0 v0] d IH]; cbn; [discriminate|].
  destruct (String.eqb k0 k) eqn:E.
  - apply String.eqb_eq in E. subst k0. now intros [= ->].
  - intro Hd. now rewrite IH.
Qed.

Lemma keys_enable_sections names :
  forall others, Dict.keys (enable_sections names others) = Dict.keys others.
Proof.
  unfold enable_sections. induction names as [|c names IH]; intro others; [reflexivity|].
  cbn [fold_left]. rewrite IH.
  destruct (String.eqb c "telegram" || String.eqb c "whatsapp"); [reflexivity|].
  unfold Dict.contains.
  destruct (Dict.get c others) as [b|] eqn:Hc; [|reflexivity].
  exact (keys_set_present c true b others Hc).
Qed.

Lemma get_enable_sections names :
  forall others section,
    Dict.get section (enable_sections names others)
    = option_map
        (fun b => b || (mentions names section && negb (String.eqb section "telegram")
                        && negb (String.eqb section "whatsapp")))
        (Dict.get section others).
Proof.
  unfold enable_sections. induction names as [|c names IH]; intros others section.
  - cbn. destruct (Dict.get section others); cbn; now rewrite ?orb_false_r.
  - cbn [fold_left]. rewrite IH, mentions_cons.
    destruct (String.eqb c "telegram") eqn:Et.
    { apply String.eqb_eq in Et. subst c. cbn [orb].
      destruct (Dict.get section others); cbn; [|reflexivity]. f_equal.
      destruct (String.eqb section "telegram"); cbn; [|reflexivity].
      now rewrite !andb_false_r. }
    destruct (String.eqb c "whatsapp") eqn:Ew.
    { apply String.eqb_eq in Ew. subst c. cbn [orb].
      destruct (Dict.get section others); cbn; [|reflexivity]. f_equal.
      destruct (String.eqb section "whatsapp"); cbn; [|reflexivity].
      now rewrite !andb_false_r. }
    cbn [orb]. unfold Dict.contains.
    destruct (Dict.get c others) as [b0|] eqn:Hc.
    + rewrite get_set. destruct (String.eqb c section) eqn:Es.
      * apply String.eqb_eq in Es. subst c. rewrite Hc, String.eqb_refl, Et, Ew. cbn.
        now rewrite orb_true_r.
      * rewrite (String.eqb_sym section c), Es. reflexivity.
    + destruct (String.eqb section c) eqn:Es; [|reflexivity].
      apply String.eqb_eq in Es. subst c. now rewrite Hc.
Qed.

Lemma enable_sections_fixed names :
  forall others,
    (forall c b, In c names -> String.eqb c "telegram" || String.eqb c "whatsapp" = false ->
                 Dict.get c others = Some b -> b = true) ->
    enable_sections names others = others.
Proof.
  unfold enable_sections. induction names as [|c names IH]; intros others Hon; [reflexivity|].
  cbn [fold_left].
  assert (Hstep : (if String.eqb c "telegram" || String.eqb c "whatsapp" then others
                   else if Dict.contains c others then Dict.set c true others else others)
                  = others).
  { destruct (String.eqb c "telegram" || String.eqb c "whatsapp") eqn:E; [reflexivity|].
    unfold Dict.contains. destruct (Dict.get c others) as [b|] eqn:Hc; [|reflexivity].
    apply set_same. now rewrite Hc, (Hon c b (or_introl eq_refl) E Hc). }
  rewrite Hstep. apply IH. intros c0 b Hin. apply Hon. now right.
Qed.

Lemma mentions_in names c : In c names -> mentions names c = true.
Proof.
  intro Hin. unfold mentions. apply existsb_exists. exists c. split; [exact Hin|].
  apply String.eqb_refl.
Qed.

Lemma enable_sections_idempotent names others :
  enable_sections names (enable_sections names others) = enable_sections names others.
Proof.
  apply enable_sections_fixed. intros c b Hin Hother. rewrite get_enable_sections.
  apply orb_false_iff in Hother as [Ht Hw].
  rewrite (mentions_in names c Hin), Ht, Hw. cbn.
  destruct (Dict.get c others); cbn; [|discriminate].
  intros [= <-]. apply orb_true_r.
Qed.

Ltac open_records :=
  repeat match goal with
    | x : Config |- _ => destruct x
    | x : ProvidersConfig.t |- _ => destruct x
    | x : ProviderConfig.t |- _ => destruct x
    | x : AgentsConfig.t |- _ => destruct x
    | x : AgentDefaults.t |- _ => destruct x
    | x : ChannelsConfig.t |- _ => destruct x
    | x : TelegramConfig.t |- _ => destruct x
    | x : WhatsAppConfig.t |- _ => destruct x
    | x : ToolsConfig.t |- _ => destruct x
    | x : WebToolsConfig.t |- _ => destruct x
    | x : WebSearchConfig.t |- _ => destruct x
    end.

(** Two configuration objects with the same fields are the same. *)
Lemma config_ext c1 c2 :
  (forall f, read f c1 = read f c2) -> other_sections c1 = other_sections c2 -> c1 = c2.
Proof.
  intros Hread Hsections.
  pose proof (Hread groq_api_key) as H1. pose proof (Hread openrouter_api_key) as H2.
  pose proof (Hread openai_api_key) as H3. pose proof (Hread anthropic_api_key) as H4.
  pose proof (Hread deepseek_api_key) as H5. pose proof (Hread gemini_api_key) as H6.
  pose proof (Hread zhipu_api_key) as H7. pose proof (Hread agent_model) as H8.
  pose proof (Hread agent_workspace) as H9. pose proof (Hread telegram_token) as H10.
  pose proof (Hread telegram_enabled) as H11. pose proof (Hread telegram_allow_from) as H12.
  pose proof (Hread whatsapp_enabled) as H13. pose proof (Hread whatsapp_allow_from) as H14.
  pose proof (Hread web_search_api_key) as H15. clear Hread.
  open_records. unfold other_sections in Hsections. cbn in *. congruence.
Qed.

Lemma effect_idempotent environ f old :
  effect environ f (effect environ f old) = effect environ f old.
Proof.
  destruct f; cbn [effect]; unfold or_text, or_list;
    try (match goal with |- context [chosen ?g] => now destruct (chosen g) end);
    rewrite or_flag_twice; now rewrite orb_diag.
Qed.

Lemma overrides_idempotent environ config :
  _apply_env_overrides environ (_apply_env_overrides environ config)
  = _apply_env_overrides environ config.
Proof.
  apply config_ext.
  - intro f. now rewrite !read_overrides, effect_idempotent.
  - now rewrite !other_sections_overrides, enable_sections_idempotent.
Qed.

(** X10.  The overrides field by field: after [_apply_env_overrides] every
    field holds what the table [effect] makes of the value it had (a text
    field takes the value of its variable, or of the first of its two
    variables that is set and not empty; a list field takes the trimmed
    pieces of its variable; an [enabled] flag is or-ed with what turns it
    on).  No channel section is added, removed or reordered, and no
    [enabled] flag that is on is turned off. *)
Theorem X10_overrides_table environ config :
  (forall f, read f (_apply_env_overrides environ config) = effect environ f (read f config)) /\
  Dict.keys (other_sections (_apply_env_overrides environ config))
  = Dict.keys (other_sections config) /\
  (forall f,
     is_enabled_flag f = true -> read f config = VBool true ->
     read f (_apply_env_overrides environ config) = VBool true).
Proof.
  split; [|split].
  - intro f. apply read_overrides.
  - now rewrite other_sections_overrides, keys_enable_sections.
  - intros f Hflag Hon. rewrite read_overrides, Hon.
    destruct f; try discriminate; reflexivity.
Qed.

Lemma X10_overrides_table_witness :
  read whatsapp_enabled
    (_apply_env_overrides
       (fun name => if String.eqb name "WHATSAPP_ENABLED" then Some "false" else None)
       (set_whatsapp_enabled true Examples.plain_config))
  = VBool true.
Proof.
  exact (proj2 (proj2 (X10_overrides_table
                         (fun name =>
                            if String.eqb name "WHATSAPP_ENABLED" then Some "false" else None)
                         (set_whatsapp_enabled true Examples.plain_config)))
           whatsapp_enabled eq_refl eq_refl).
Defined.

Lemma chosen_first a b x :
  a = Some x -> PyStr.truthy x = true -> chosen (py_or a b) = Some x.
Proof. intros -> Hx. unfold py_or, chosen. now rewrite Hx, Hx. Qed.

Lemma chosen_second environ a b y :
  unset environ a = true -> environ b = Some y -> PyStr.truthy y = true ->
  chosen (py_or (environ a) (environ b)) = Some y.
Proof.
  unfold unset, py_or, chosen. intros Ha -> Hy.
  destruct (environ a) as [s|]; [|now rewrite Hy].
  destruct (PyStr.truthy s); [discriminate|now rewrite Hy].
Qed.

(** X11.  The other three pairs of aliases behave as the Groq pair does: of
    [ZHIPU_API_KEY] and [ZHIPUAI_API_KEY], of [AGENT_MODEL] and [MODEL], of
    [ALLOWED_USERS] and [TELEGRAM_ALLOWED_USERS], the first is used when it
    is set and not empty, the second when the first is unset or empty. *)
Theorem X11_alias_pairs environ config :
  (forall x,
     environ "ZHIPU_API_KEY" = Some x -> PyStr.truthy x = true ->
     read zhipu_api_key (_apply_env_overrides environ config) = VStr x) /\
  (forall y,
     unset environ "ZHIPU_API_KEY" = true ->
     environ "ZHIPUAI_API_KEY" = Some y -> PyStr.truthy y = true ->
     read zhipu_api_key (_apply_env_overrides environ config) = VStr y) /\
  (forall x,
     environ "AGENT_MODEL" = Some x -> PyStr.truthy x = true ->
     read agent_model (_apply_env_overrides environ config) = VStr x) /\
  (forall y,
     unset environ "AGENT_MODEL" = true ->
     environ "MODEL" = Some y -> PyStr.truthy y = true ->
     read agent_model (_apply_env_overrides environ config) = VStr y) /\
  (forall x,
     environ "ALLOWED_USERS" = Some x -> PyStr.truthy x = true ->
     read telegram_allow_from (_apply_env_overrides environ config)
     = VList (split_and_strip x)) /\
  (forall y,
     unset environ "ALLOWED_USERS" = true ->
     environ "TELEGRAM_ALLOWED_USERS" = Some y -> PyStr.truthy y = true ->
     read telegram_allow_from (_apply_env_overrides environ config)
     = VList (split_and_strip y)).
Proof.
  repeat split.
  - intros x Hx Ht. rewrite read_overrides. cbn [effect]. unfold or_text.
    now rewrite (chosen_first _ _ x Hx Ht).
  - intros y Hu Hy Ht. rewrite read_overrides. cbn [effect]. unfold or_text.
    now rewrite (chosen_second environ _ _ y Hu Hy Ht).
  - intros x Hx Ht. rewrite read_overrides. cbn [effect]. unfold or_text.
    now rewrite (chosen_first _ _ x Hx Ht).
  - intros y Hu Hy Ht. rewrite read_overrides. cbn [effect]. unfold or_text.
    now rewrite (chosen_second environ _ _ y Hu Hy Ht).
  - intros x Hx Ht. rewrite read_overrides. cbn [effect]. unfold or_list.
    now rewrite (chosen_first _ _ x Hx Ht).
  - intros y Hu Hy Ht. rewrite read_overrides. cbn [effect]. unfold or_list.
    now rewrite (chosen_second environ _ _ y Hu Hy Ht).
Qed.

Lemma X11_alias_pairs_witness :
  read agent_model
    (_apply_env_overrides
       (fun name => if String.eqb name "MODEL" then Some "groq/llama" else None)
       Examples.plain_config)
  = VStr "groq/llama" /\
  read telegram_allow_from
    (_apply_env_overrides
       (fun name =>
          if String.eqb name "ALLOWED_USERS" then Some "1, 2"
          else if String.eqb name "TELEGRAM_ALLOWED_USERS" then Some "3" else None)
       Examples.plain_config)
  = VList ["1"; "2"].
Proof.
  split.
  - exact (proj1 (proj2 (proj2 (proj2 (X11_alias_pairs
             (fun name => if String.eqb name "MODEL" then Some "groq/llama" else None)
             Examples.plain_config))))
             "groq/llama" eq_refl eq_refl eq_refl).
  - exact (proj1 (proj2 (proj2 (proj2 (proj2 (X11_alias_pairs
             (fun name =>
                if String.eqb name "ALLOWED_USERS" then Some "1, 2"
                else if String.eqb name "TELEGRAM_ALLOWED_USERS" then Some "3" else None)
             Examples.plain_config)))))
             "1, 2" eq_refl eq_refl).
Defined.

Lemma if_set_nothing guard config : if_set guard (fun _ config => config) config = config.
Proof. rewrite if_set_chosen. now destruct (chosen guard). Qed.

(** X12.  Only the nineteen variables of [effective_variables] matter: two
    environments that agree on them give the same configuration object.
    [AGENT_ENGINE], which the code reads, is not one of them, and neither is
    any variable the code does not name. *)
Theorem X12_effective_variables environ1 environ2 config :
  Forall (fun name => environ1 name = environ2 name) effective_variables ->
  _apply_env_overrides environ1 config = _apply_env_overrides environ2 config.
Proof.
  intro Hagree. unfold effective_variables in Hagree. split_unset.
  unfold _apply_env_overrides, get_or. rewrite !if_set_nothing.
  repeat match goal with
    | Heq : environ1 _ = environ2 _ |- _ => rewrite Heq; clear Heq
    end.
  reflexivity.
Qed.

Lemma X12_effective_variables_witness :
  _apply_env_overrides
    (fun name => if String.eqb name "AGENT_ENGINE" then Some "litellm" else None)
    Examples.plain_config
  = _apply_env_overrides Examples.no_variables Examples.plain_config.
Proof.
  apply X12_effective_variables. repeat constructor.
Defined.

(** ** Lists read from a variable *)

Lemma split_length sep s : length (PyStr.split sep s) = S (count_char sep s).
Proof.
  induction s as [|c s IH]; [reflexivity|]. cbn [PyStr.split count_char].
  destruct (Ascii.eqb c sep); cbn [length]; [now rewrite IH|].
  destruct (PyStr.split sep s) as [|h t] eqn:E; [now apply split_not_nil in E|].
  cbn [length] in *. exact IH.
Qed.

Lemma split_parts_free sep s :
  Forall (fun p => count_char sep p = 0) (PyStr.split sep s).
Proof.
  induction s as [|c s IH]; [repeat constructor|]. cbn [PyStr.split].
  destruct (Ascii.eqb c sep) eqn:Hc; [now constructor|].
  destruct (PyStr.split sep s) as [|h t]; [repeat constructor; cbn; now rewrite Hc|].
  inversion IH as [|? ? Hh Ht]; subst. constructor; [|exact Ht].
  cbn. now rewrite Hc.
Qed.

Lemma lstrip_free sep s : count_char sep s = 0 -> count_char sep (PyStr.lstrip s) = 0.
Proof.
  induction s as [|c s IH]; [reflexivity|]. cbn [PyStr.lstrip].
  destruct (PyStr.isspace c); [|trivial]. cbn. intro Hs. apply IH. lia.
Qed.

Lemma rstrip_free sep s : count_char sep s = 0 -> count_char sep (PyStr.rstrip s) = 0.
Proof.
  induction s as [|c s IH]; [reflexivity|]. cbn [PyStr.rstrip count_char]. intro Hs.
  assert (Hc : (if Ascii.eqb c sep then 1 else 0) = 0) by lia.
  assert (Hr : count_char sep (PyStr.rstrip s) = 0) by (apply IH; lia).
  destruct (PyStr.rstrip s) as [|d r].
  - destruct (PyStr.isspace c); cbn; [reflexivity|]. now rewrite Hc.
  - cbn [count_char] in *. now rewrite Hc.
Qed.

Lemma rstrip_idempotent s : PyStr.rstrip (PyStr.rstrip s) = PyStr.rstrip s.
Proof.
  induction s as [|c s IH]; [reflexivity|]. cbn [PyStr.rstrip].
  destruct (PyStr.rstrip s) as [|d r] eqn:E.
  - destruct (PyStr.isspace c) eqn:Hc; [reflexivity|]. cbn. now rewrite Hc.
  - cbn [PyStr.rstrip] in *. now rewrite IH.
Qed.

Lemma lstrip_rstrip_lstrip s :
  PyStr.lstrip (PyStr.rstrip (PyStr.lstrip s)) = PyStr.rstrip (PyStr.lstrip s).
Proof.
  induction s as [|c s IH]; [reflexivity|]. cbn [PyStr.lstrip].
  destruct (PyStr.isspace c) eqn:Hc; [exact IH|].
  cbn [PyStr.rstrip]. destruct (PyStr.rstrip s); rewrite ?Hc; cbn [PyStr.lstrip]; now rewrite Hc.
Qed.

Lemma strip_idempotent s : PyStr.strip (PyStr.strip s) = PyStr.strip s.
Proof. unfold PyStr.strip. now rewrite lstrip_rstrip_lstrip, rstrip_idempotent. Qed.

Lemma split_and_strip_entries s :
  length (split_and_strip s) = S (count_char "," s) /\
  Forall (fun u => PyStr.strip u = u /\ count_char "," u = 0) (split_and_strip s).
Proof.
  unfold split_and_strip. split; [now rewrite length_map, split_length|].
  apply Forall_map. eapply Forall_impl; [|apply split_parts_free].
  intros p Hp. split; [apply strip_idempotent|].
  unfold PyStr.strip. now apply rstrip_free, lstrip_free.
Qed.

(** X13.  The allow lists read from the environment: when the variable of
    the telegram list (the first of its two aliases that is set and not
    empty) or of the whatsapp list holds [a], the list becomes the pieces of
    [a] between commas, trimmed.  There is one entry more than there are
    commas in [a], so the list is never empty and empty pieces stay as empty
    entries; no entry has a comma or white space at either end. *)
Theorem X13_allow_lists environ config :
  (forall a,
     chosen (py_or (environ "ALLOWED_USERS") (environ "TELEGRAM_ALLOWED_USERS")) = Some a ->
     exists users,
       read telegram_allow_from (_apply_env_overrides environ config) = VList users /\
       length users = S (count_char "," a) /\
       Forall (fun u => PyStr.strip u = u /\ count_char "," u = 0) users) /\
  (forall a,
     chosen (environ "WHATSAPP_ALLOWED_NUMBERS") = Some a ->
     exists numbers,
       read whatsapp_allow_from (_apply_env_overrides environ config) = VList numbers /\
       length numbers = S (count_char "," a) /\
       Forall (fun u => PyStr.strip u = u /\ count_char "," u = 0) numbers).
Proof.
  split; intros a Ha; exists (split_and_strip a);
    (split; [|apply split_and_strip_entries]);
    rewrite read_overrides; cbn [effect]; unfold or_list; now rewrite Ha.
Qed.

Lemma X13_allow_lists_witness :
  exists users,
    read telegram_allow_from
      (_apply_env_overrides
         (fun name => if String.eqb name "ALLOWED_USERS" then Some " 42 ,, bob," else None)
         Examples.plain_config)
    = VList users /\
    length users = 4 /\
    Forall (fun u => PyStr.strip u = u /\ count_char "," u = 0) users.
Proof.
  exact (proj1 (X13_allow_lists
                  (fun name =>
                     if String.eqb name "ALLOWED_USERS" then Some " 42 ,, bob," else None)
                  Examples.plain_config)
           " 42 ,, bob," eq_refl).
Defined.

(** ** The overrides applied twice *)

Section Reapplied.
Context {codec : JsonCodec} {schema : Schema}.

Lemma load_config_overridden config_path w log config :
  load_config config_path w = (log, Ret config) ->
  exists loaded, config = _apply_env_overrides (environ w) loaded.
Proof.
  unfold load_config. destruct (try_inline w) as [log1 [[c|]|e]]; [| |discriminate].
  - intro H. injection H as _ <-. now exists c.
  - destruct (try_paths w (candidate_paths config_path w)) as [log2 [r|e]];
      [|discriminate].
    intro H. injection H as _ <-. now eexists.
Qed.

(** X14.  [_apply_env_overrides] is idempotent: applying the overrides of
    one environment a second time changes nothing.  So the configuration
    [load_config] returns already carries the overrides of its
    environment, whichever source it came from. *)
Theorem X14_overrides_idempotent :
  (forall environ config,
     _apply_env_overrides environ (_apply_env_overrides environ config)
     = _apply_env_overrides environ config) /\
  (forall config_path w log config,
     load_config config_path w = (log, Ret config) ->
     _apply_env_overrides (environ w) config = config).
Proof.
  split.
  - intros environ config. apply config_ext.
    + intro f. now rewrite !read_overrides, effect_idempotent.
    + now rewrite !other_sections_overrides, enable_sections_idempotent.
  - intros config_path w log config Hload.
    destruct (load_config_overridden _ _ _ _ Hload) as [loaded ->].
    apply overrides_idempotent.
Qed.

End Reapplied.

Lemma X14_overrides_idempotent_witness :
  _apply_env_overrides Examples.deployment_variables
    (_apply_env_overrides Examples.deployment_variables Examples.plain_config)
  = _apply_env_overrides Examples.deployment_variables Examples.plain_config /\
  exists config,
    load_config (codec := Examples.example_codec) (schema := Examples.example_schema)
      None Examples.fallback_world = ([WarnPath Examples.home_config JSONDecodeError], Ret config) /\
    _apply_env_overrides (environ Examples.fallback_world) config = config.
Proof.
  split.
  - exact (proj1 (X14_overrides_idempotent (codec := Examples.example_codec)
                    (schema := Examples.example_schema)) _ _).
  - eexists. split; [reflexivity|].
    exact (proj2 (X14_overrides_idempotent (codec := Examples.example_codec)
                    (schema := Examples.example_schema))
             None Examples.fallback_world _ _ eq_refl).
Defined.

(** ** What the loader prints and what it returns *)

Ltac settle_outcome :=
  repeat match goal with |- _ /\ _ => split end;
  try discriminate; try solve [constructor]; try solve [cbn [length] in *; lia].

Section Outcome.
Context {codec : JsonCodec} {schema : Schema}.

Lemma try_paths_outcome w paths log r :
  try_paths w paths = (log, r) ->
  Forall (justified w paths) log /\
  length log <= length paths /\
  (forall e, r = Raise e -> is_ValueError e = false) /\
  (forall config, r = Ret (Some config) -> first_yield w paths = Some config) /\
  (r = Ret None -> first_yield w paths = None).
Proof.
  revert log r. induction paths as [|path rest IH]; intros log r; cbn [try_paths first_yield].
  - intros [= <- <-]. settle_outcome.
  - assert (Hweaken : forall l, Forall (justified w rest) l -> Forall (justified w (path :: rest)) l).
    { intros l Hl. eapply Forall_impl; [|exact Hl].
      intros [e|p e]; cbn [justified]; [trivial|]. intros [Hin Hf]. split; [now right|exact Hf]. }
    destruct (fs w path) as [f|] eqn:Hf.
    2:{ intro Hrest. destruct (IH _ _ Hrest) as (H1 & H2 & H3 & H4 & H5).
        settle_outcome; auto. }
    unfold load_file. destruct (text <- read_text f;; load_document text) as [config|e] eqn:Hload.
    + intros [= <- <-]. settle_outcome. now intros c [= <-].
    + destruct (is_ValueError e) eqn:He.
      * destruct (try_paths w rest) as [log' r'] eqn:Hrest. intros [= <- <-].
        destruct (IH _ _ eq_refl) as (H1 & H2 & H3 & H4 & H5).
        settle_outcome; auto.
        constructor; [|now apply Hweaken].
        cbn [justified]. split; [now left|]. exists f. unfold load_file. now rewrite Hload.
      * intros [= <- <-]. settle_outcome. now intros e' [= <-].
Qed.

Lemma try_inline_outcome w log r :
  try_inline w = (log, r) ->
  Forall (justified w []) log /\
  length log <= 1 /\
  (forall e, r = Raise e -> is_ValueError e = false /\ log = []) /\
  (forall config, r = Ret (Some config) -> inline_yield w = Some config /\ log = []) /\
  (r = Ret None -> inline_yield w = None).
Proof.
  unfold try_inline, inline_yield, chosen.
  destruct (environ w "NANOBOT_CONFIG") as [text|] eqn:Henv.
  2:{ intros [= <- <-]. settle_outcome. }
  destruct (PyStr.truthy text) eqn:Htext.
  2:{ intros [= <- <-]. settle_outcome. }
  destruct (load_document text) as [config|e] eqn:Hload.
  - intros [= <- <-]. settle_outcome. now intros c [= <-].
  - destruct (is_ValueError e) eqn:He; intros [= <- <-].
    + settle_outcome.
      constructor; [|constructor]. cbn [justified]. exists text.
      unfold chosen. now rewrite Henv, Htext.
    + settle_outcome. now intros e' [= <-].
Qed.

Lemma justified_paths w paths message :
  justified w [] message -> justified w paths message.
Proof. destruct message; cbn [justified]; [trivial|]. now intros [[] _]. Qed.

(** X15.  Whatever [load_config] does, every warning it has printed is
    justified: it names a source that is there (the inline variable, set
    and not empty, or a candidate path that exists) and that failed to load
    with one of the errors the loader catches.  There are never more
    warnings than sources.  An exception that leaves [load_config] is never of
    the class [ValueError]; and a configuration it returns is the one of
    the first source that loads, or the all-defaults one, with the
    overrides applied. *)
Theorem X15_load_config_outcome config_path w log r :
  load_config config_path w = (log, r) ->
  Forall (justified w (candidate_paths config_path w)) log /\
  length log <= S (length (candidate_paths config_path w)) /\
  (forall e, r = Raise e -> is_ValueError e = false) /\
  (forall config,
     r = Ret config ->
     config = _apply_env_overrides (environ w) (first_source config_path w)).
Proof.
  unfold load_config, first_source.
  destruct (try_inline w) as [log1 r1] eqn:Hinline.
  destruct (try_inline_outcome _ _ _ Hinline) as (J1 & L1 & E1 & Y1 & N1).
  assert (J1' : Forall (justified w (candidate_paths config_path w)) log1)
    by (eapply Forall_impl; [apply justified_paths|exact J1]).
  destruct r1 as [[c|]|e].
  - intros [= <- <-]. destruct (Y1 c eq_refl) as [-> ->].
    repeat split; [constructor|cbn; lia|discriminate|]. now intros config [= <-].
  - destruct (try_paths w (candidate_paths config_path w)) as [log2 r2] eqn:Hloop.
    destruct (try_paths_outcome _ _ _ _ Hloop) as (J2 & L2 & E2 & Y2 & N2).
    rewrite (N1 eq_refl).
    assert (J : Forall (justified w (candidate_paths config_path w)) (log1 ++ log2))
      by (apply Forall_app; now split).
    assert (L : length (log1 ++ log2) <= S (length (candidate_paths config_path w)))
      by (rewrite length_app; lia).
    destruct r2 as [[c|]|e]; intros [= <- <-]; repeat split; trivial; try discriminate.
    + intros config [= <-]. now rewrite (Y2 c eq_refl).
    + intros config [= <-]. now rewrite (N2 eq_refl).
    + intros e' [= <-]. now apply E2.
  - intros [= <- <-]. repeat split; trivial; [lia| |discriminate].
    intros e' [= <-]. now apply E1.
Qed.

(** X16.  The inline variable wins outright: when [NANOBOT_CONFIG] is set,
    not empty, and loads, what [load_config] does is the same whatever
    path is given and whatever is in the file system: no file is looked at,
    not even one that cannot be opened.  It prints no warning, and the
    configuration it returns is the inline one with the overrides
    applied. *)
Theorem X16_inline_wins config_path w text config :
  chosen (environ w "NANOBOT_CONFIG") = Some text ->
  load_document text = Ret config ->
  forall config_path' w',
    environ w' = environ w ->
    load_config config_path' w' = load_config config_path w /\
    fst (load_config config_path' w') = [] /\
    (forall returned,
       snd (load_config config_path' w') = Ret returned ->
       returned = _apply_env_overrides (environ w) config).
Proof.
  intros Hset Hload.
  assert (Hany : forall p v, environ v = environ w ->
            load_config p v = ([], Ret (_apply_env_overrides (environ w) config))).
  { intros p v Henv. unfold load_config, try_inline. rewrite Henv.
    unfold chosen in Hset. destruct (environ w "NANOBOT_CONFIG") as [t|]; [|discriminate].
    destruct (PyStr.truthy t); [|discriminate]. injection Hset as ->.
    now rewrite Hload. }
  intros p v Henv. rewrite (Hany p v Henv), (Hany config_path w eq_refl).
  split; [reflexivity|]. split; [reflexivity|].
  cbn [snd]. now intros returned [= <-].
Qed.

End Outcome.

Lemma X15_load_config_outcome_witness :
  Forall (justified (codec := Examples.example_codec) (schema := Examples.example_schema)
            Examples.fallback_world (candidate_paths None Examples.fallback_world))
    [WarnPath Examples.home_config JSONDecodeError] /\
  length [WarnPath Examples.home_config JSONDecodeError]
  <= S (length (candidate_paths None Examples.fallback_world)) /\
  (forall e,
     Ret (_apply_env_overrides Examples.no_variables Examples.plain_config) = Raise e ->
     is_ValueError e = false) /\
  (forall config,
     Ret (_apply_env_overrides Examples.no_variables Examples.plain_config) = Ret config ->
     config =
     _apply_env_overrides (environ Examples.fallback_world)
       (first_source (codec := Examples.example_codec) (schema := Examples.example_schema)
          None Examples.fallback_world)).
Proof.
  exact (X15_load_config_outcome (codec := Examples.example_codec)
           (schema := Examples.example_schema) None Examples.fallback_world
           [WarnPath Examples.home_config JSONDecodeError]
           (Ret (_apply_env_overrides Examples.no_variables Examples.plain_config))
           eq_refl).
Defined.

Lemma X16_inline_wins_witness :
  load_config (codec := Examples.example_codec) (schema := Examples.example_schema)
    (Some Examples.home_config) Scenarios.inline_world
  = load_config (codec := Examples.example_codec) (schema := Examples.example_schema)
      None Scenarios.inline_only_world /\
  fst (load_config (codec := Examples.example_codec) (schema := Examples.example_schema)
         (Some Examples.home_config) Scenarios.inline_world)
  = [] /\
  (forall returned,
     snd (load_config (codec := Examples.example_codec) (schema := Examples.example_schema)
            (Some Examples.home_config) Scenarios.inline_world)
     = Ret returned ->
     returned
     = _apply_env_overrides (environ Scenarios.inline_only_world) Examples.plain_config).
Proof.
  exact (X16_inline_wins (codec := Examples.example_codec) (schema := Examples.example_schema)
           None Scenarios.inline_only_world "{}" Examples.plain_config eq_refl eq_refl
           (Some Examples.home_config) Scenarios.inline_world eq_refl).
Defined.

(** ** Writing and reading back *)

Lemma migrate_without_legacy_flag data :
  sections_are_mappings data = true -> lookup legacy_flag data = None ->
  _migrate_config data = Ret data.
Proof.
  intros Hs Hnone. destruct data as [| | | | | |top]; try discriminate.
  unfold legacy_flag in Hnone. cbn [lookup sections_are_mappings] in *.
  unfold _migrate_config.
  destruct (Dict.get "tools" top) as [[| | | | | |tools_items]|]; try discriminate;
    [|reflexivity].
  destruct (Dict.get "exec" tools_items) as [[| | | | | |exec_items]|]; try discriminate;
    [|reflexivity].
  unfold str_in, bind, Dict.contains.
  destruct (Dict.get "restrictToWorkspace" exec_items); [discriminate|reflexivity].
Qed.

Section Persisted.
Context {codec : JsonCodec} {schema : Schema}.

(** X18.  What [save_config] writes, [load_config] reads back: after a
    successful save to a path, loading with the same path argument prints
    no warning, and the configuration it returns is the saved one with the
    overrides of the environment applied.  This holds when
    [NANOBOT_CONFIG] is unset or empty,
    the field representation of the configuration is an internal document
    (distinct [snake_key]s at every depth) that validates to the
    configuration, the written document has mappings for sections and no
    legacy flag, and the JSON codec reads back what it prints. *)
Theorem X18_save_then_load config config_path w w' :
  chosen (environ w "NANOBOT_CONFIG") = None ->
  save_config config config_path w = Ret w' ->
  snake_document (model_dump config) = true ->
  sections_are_mappings (convert_to_camel (model_dump config)) = true ->
  lookup legacy_flag (convert_to_camel (model_dump config)) = None ->
  json_loads (json_dumps (convert_to_camel (model_dump config)) 2)
  = Some (convert_to_camel (model_dump config)) ->
  model_validate (model_dump config) = Some config ->
  fst (load_config config_path w') = [] /\
  (forall returned,
     snd (load_config config_path w') = Ret returned ->
     returned = _apply_env_overrides (environ w) config).
Proof.
  intros Hinline Hsave Hdoc Hsections Hlegacy Hcodec Hschema.
  enough (Hload : load_config config_path w'
                  = ([], Ret (_apply_env_overrides (environ w) config))).
  { rewrite Hload. split; [reflexivity|]. cbn [snd]. now intros returned [= <-]. }
  unfold save_config in Hsave.
  set (path := match config_path with Some p => p | None => get_config_path w end) in *.
  destruct (mkdir_fails w (Path_parent path)); [discriminate|].
  destruct (open_w_fails (mkdir_parents (Path_parent path) w) path); [discriminate|].
  injection Hsave as <-.
  assert (Hfile : load_file (Text (json_dumps (convert_to_camel (model_dump config)) 2))
                  = Ret config).
  { unfold load_file, load_document. cbn [read_text bind]. rewrite Hcodec. cbn [bind].
    rewrite (migrate_without_legacy_flag _ Hsections Hlegacy). cbn [bind].
    now rewrite (wire_round_trip _ Hdoc), Hschema. }
  assert (Hpaths : exists rest, candidate_paths config_path
                     (write_text path (json_dumps (convert_to_camel (model_dump config)) 2)
                        (mkdir_parents (Path_parent path) w))
                   = path :: rest).
  { unfold candidate_paths, path, get_config_path. destruct config_path; cbn; eauto. }
  destruct Hpaths as [rest Hpaths].
  unfold load_config, try_inline. cbn [environ write_text mkdir_parents].
  unfold chosen in Hinline.
  assert (Hskip : match environ w "NANOBOT_CONFIG" with
                  | Some env_config =>
                      if PyStr.truthy env_config
                      then match load_document env_config with
                           | Ret config0 => ([], Ret (Some config0))
                           | Raise e =>
                               if is_ValueError e then ([WarnInline e], Ret None)
                               else ([], Raise e)
                           end
                      else ([], Ret None)
                  | None => ([], Ret None)
                  end = (@nil warning, Ret (@None Config))).
  { destruct (environ w "NANOBOT_CONFIG") as [t|]; [|reflexivity].
    now destruct (PyStr.truthy t). }
  rewrite Hskip. cbn [environ write_text mkdir_parents] in Hpaths. rewrite Hpaths.
  cbn [try_paths fs write_text]. rewrite Path_eqb_refl.
  unfold load_file in Hfile. now rewrite Hfile.
Qed.

End Persisted.

Lemma X18_save_then_load_witness :
  exists w',
    save_config (codec := Scenarios.reading_codec) (schema := Examples.example_schema)
      Examples.plain_config None Examples.empty_world = Ret w' /\
    fst (load_config (codec := Scenarios.reading_codec) (schema := Examples.example_schema)
           None w')
    = [] /\
    (forall returned,
       snd (load_config (codec := Scenarios.reading_codec)
              (schema := Examples.example_schema) None w')
       = Ret returned ->
       returned
       = _apply_env_overrides (environ Examples.empty_world) Examples.plain_config).
Proof.
  eexists. split; [reflexivity|].
  exact (X18_save_then_load (codec := Scenarios.reading_codec)
           (schema := Examples.example_schema)
           Examples.plain_config None Examples.empty_world _
           eq_refl eq_refl eq_refl eq_refl eq_refl eq_refl eq_refl).
Defined.

(** ** The client of the BigQuery tool *)

Section Client.
Import BigQuery.
Context {service : Service}.

Lemma execute_state self operation kwargs :
  snd (execute self operation kwargs) = snd (_get_client self).
Proof.
  unfold execute, execute_try.
  destruct (_get_client self) as [[c|m] self']; [|reflexivity].
  cbn [snd].
  match goal with
  | |- snd (match ?outcome with Done _ => _ | Throws _ => _ end) = _ =>
      now destruct outcome
  end.
Qed.

(** X19.  The client is made once and kept.  After any call of [execute],
    whatever the operation and its arguments, and whether or not the
    operation failed, the tool holds the client it held before; when it
    held none, it holds a new one exactly when the key file exists and the
    connection succeeded.  So a failed operation never drops the client, a
    call with an unknown operation or a missing parameter still connects,
    and a failed connection is tried again by the next call. *)
Theorem X19_client_kept self operation kwargs :
  client (snd (execute self operation kwargs)) =
  match client self with
  | Some c => Some c
  | None =>
      if key_exists then
        match connect with
        | Done c => Some c
        | Throws _ => None
        end
      else None
  end.
Proof.
  rewrite execute_state. unfold _get_client.
  destruct (client self) as [c|] eqn:Hclient; [exact Hclient|].
  destruct key_exists; cbn [negb]; [|exact Hclient].
  destruct connect; [reflexivity|exact Hclient].
Qed.

(** X20.  The insert operation reports success only when the rows went
    in: [execute] answers ["Success: Rows inserted"] to an insert exactly
    when a client is available, the three parameters [dataset_id],
    [table_id] and [rows] are given and not empty, and the library's
    [insert_rows_json] returned an empty list of errors. *)
Theorem X20_insert_success self kwargs :
  fst (execute self "insert" kwargs) = "Success: Rows inserted" <->
  exists c,
    fst (_get_client self) = Done c /\
    truthy (Dict.get "dataset_id" kwargs) = true /\
    truthy (Dict.get "table_id" kwargs) = true /\
    truthy (Dict.get "rows" kwargs) = true /\
    insert_rows_json c (arg (Dict.get "dataset_id" kwargs))
      (arg (Dict.get "table_id" kwargs)) (arg (Dict.get "rows" kwargs)) = Done [].
Proof.
  unfold execute, execute_try.
  destruct (_get_client self) as [[c|m] self']; cbn [fst String.eqb Ascii.eqb Bool.eqb].
  2:{ split; [intro H; discriminate H|]. intros [c [H _]]. discriminate H. }
  destruct (truthy (Dict.get "dataset_id" kwargs));
    [|split; [intro H; discriminate H|intros [c' (_ & H & _)]; discriminate H]].
  destruct (truthy (Dict.get "table_id" kwargs));
    [|split; [intro H; discriminate H|intros [c' (_ & _ & H & _)]; discriminate H]].
  destruct (truthy (Dict.get "rows" kwargs));
    [|split; [intro H; discriminate H|intros [c' (_ & _ & _ & H & _)]; discriminate H]].
  cbn [andb negb].
  destruct (insert_rows_json c _ _ _) as [[|e errors]|m] eqn:Hinsert; cbn [fst]; split.
  - intros _. exists c. now rewrite Hinsert.
  - reflexivity.
  - intro H. discriminate H.
  - intros [c' (Hc & _ & _ & _ & H)]. injection Hc as <-. rewrite Hinsert in H. discriminate H.
  - intro H. discriminate H.
  - intros [c' (Hc & _ & _ & _ & H)]. injection Hc as <-. rewrite Hinsert in H. discriminate H.
Qed.

End Client.
